(** * iema-database-chatbot: a shallow embedding of the chat application

    The development follows the three source files of the repository:

    - [utils/report_generator.py]  (module [ReportGenerator]): the trend
      statistic of the PDF report;
    - [utils/data.py]              (module [Data]): the two-agent team and the
      [orchestrate] generator that drives it inside the execution sandbox;
    - [app.py]                     (module [App]): prompt parsing, dataset
      resolution, routing between the report and the agent loop, and the
      reconciliation of the generated plot with the persistent slot.

    The modules after [App] follow the rest of the sources: the name of a
    generated plot in a message ([Generated]), the upload of datasets
    ([Upload]), the statistics of a report entry ([ReportStats]) and the
    rendering of the chat ([ChatView]).

    Conventions of the embedding.  Python [str] values are Rocq strings and
    the characters of prompts and file names are ASCII; the case conversion,
    the word boundary and the digit class of the source are the ASCII ones
    (the two pictographs in the messages of the sources are kept as their
    UTF-8 bytes).  Numeric series hold exact rationals.  Exceptions are values: a fallible call returns [option exn]
    or an outcome, and the answers of the outside world (whether a copy, an
    unlink, a sandbox start ... fails) are read from an explicit record. *)

From Stdlib Require Import Bool Arith ZArith QArith Qabs Lia Lqa List.
From Stdlib Require Import Ascii String.
From Stdlib Require Import Permutation Sorted.
From Stdlib Require DecimalFacts.
From Stdlib Require Import DecimalNat DecimalString.
Import ListNotations.

Close Scope Q_scope.
Open Scope string_scope.

(* ================================================================== *)
(** * Part I: definitions                                              *)
(* ================================================================== *)

(** ** Python string primitives used by the sources *)
Module PyStr.

(** [c.isupper()] for an ASCII letter. *)
Definition is_upper (c : ascii) : bool :=
  (("A" <=? c) && (c <=? "Z"))%char.

(** One character of [str.lower()]: 'A'..'Z' move 32 code points up. *)
Definition lower_char (c : ascii) : ascii :=
  if is_upper c then ascii_of_nat (nat_of_ascii c + 32) else c.

(** [s.lower()] *)
Fixpoint lower (s : string) : string :=
  match s with
  | EmptyString => EmptyString
  | String c s' => String (lower_char c) (lower s')
  end.

(** [s.startswith(pre)] *)
Definition startswith (s pre : string) : bool := String.prefix pre s.

(** [pat in s]: [pat] occurs in [s] as a contiguous substring. *)
Fixpoint contains (pat s : string) : bool :=
  String.prefix pat s ||
  match s with
  | EmptyString => false
  | String _ s' => contains pat s'
  end.

(** [sep.join(parts)] *)
Definition join (sep : string) (parts : list string) : string :=
  String.concat sep parts.

(** The tail of [s] that starts at its last '.', if it has one:
    [s[s.rfind('.'):]]. *)
Fixpoint from_last_dot (s : string) : option string :=
  match s with
  | EmptyString => None
  | String c s' =>
      match from_last_dot s' with
      | Some t => Some t
      | None => if (c =? ".")%char then Some s else None
      end
  end.

(** [s.endswith(suf)] *)
Fixpoint endswith (s suf : string) : bool :=
  (s =? suf) ||
  match s with
  | EmptyString => false
  | String _ s' => endswith s' suf
  end.

(** [x in xs] for a collection of strings. *)
Definition mem (x : string) (xs : list string) : bool :=
  existsb (String.eqb x) xs.

(** [sorted(items)] for a total order given as a boolean test: the stable
    sort that inserts each element before the first one it does not
    exceed. *)
Fixpoint insert_sorted {A : Type} (leb : A -> A -> bool) (x : A) (l : list A)
  : list A :=
  match l with
  | [] => [x]
  | y :: l' => if leb x y then x :: l else y :: insert_sorted leb x l'
  end.

Fixpoint sorted {A : Type} (leb : A -> A -> bool) (l : list A) : list A :=
  match l with
  | [] => []
  | x :: l' => insert_sorted leb x (sorted leb l')
  end.

End PyStr.

(** ** utils/report_generator.py *)
Module ReportGenerator.

Open Scope Q_scope.

(** The first component of the pair [calculate_trend] returns. *)
Inductive direction : Set := increasing | decreasing | stable.




(** [series.iloc[0]] and [series.iloc[-1]].  Both are read only behind the
    length test of [calculate_trend], so the default is never returned. *)
Definition iloc_first (series : list Q) : Q := hd 0 series.
Definition iloc_last (series : list Q) : Q := last series 0.

(** Strict comparison of rationals as a boolean. *)
Definition Qlt_bool (x y : Q) : bool := negb (Qle_bool y x).

(** Nearest integer, ties to the even one. *)
Definition rint (x : Q) : Z :=
  let n := Qnum x in
  let d := Zpos (Qden x) in
  let f := (n / d)%Z in
  let r := (n mod d)%Z in
  match (2 * r ?= d)%Z with
  | Lt => f
  | Gt => (f + 1)%Z
  | Eq => if Z.even f then f else (f + 1)%Z
  end.

(** [round(x, 2)]: [x] to two decimals, ties to even. *)
Definition round2 (x : Q) : Q := Qred (rint (x * 100) # 100).

(** The local variable [trend_strength] of [calculate_trend]. *)
Definition trend_strength (series : list Q) : Q :=
  ((iloc_last series - iloc_first series) / Qabs (iloc_first series)) * 100.

(** [calculate_trend(series)] *)
Definition calculate_trend (series : list Q) : direction * Q :=
  if (List.length series <? 2)%nat || Qeq_bool (iloc_first series) 0 then
    (stable, 0)
  else
    let trend_strength := trend_strength series in
    let trend_direction :=
      if Qlt_bool (2 # 10) trend_strength then increasing
      else if Qlt_bool trend_strength (- (2 # 10)) then decreasing
      else stable in
    (trend_direction, round2 trend_strength).


End ReportGenerator.

(** ** Effects and outcomes

    What a run does to the outside world is recorded as the list of its
    effects, oldest first; how a call ends is its outcome. *)
Module Effects.

(** An exception, by its message. *)
Definition exn := string.

Inductive outcome : Set :=
| Returned
| Raised (e : exn).

Inductive effect : Set :=
| SandboxStart                 (* [local_executor.start()] is called *)
| SandboxStop                  (* [local_executor.stop()] is called *)
| Yield (msg : string)         (* [orchestrate] hands [msg] to its caller *)
| Print (line : string)        (* a line on the console *)
| StWarning (text : string)    (* [st.warning], [st.error], [st.success] *)
| StError (text : string)
| StSuccess (text : string)
| StDownload (file : list string)             (* [st.download_button] *)
| GenerateReport (dataset : list string) (columns : list string)
                               (* [generate_pdf_report(df, columns)] *)
| RunStream (task : string).   (* [team.run_stream(task=task)] is entered *)

Definition is_print (e : effect) : bool :=
  match e with Print _ => true | _ => false end.

(** A trace that holds console lines only. *)
Definition prints (tr : list effect) : Prop :=
  Forall (fun e => is_print e = true) tr.

(** The calls of the sandbox. *)
Definition is_sandbox_call (e : effect) : bool :=
  match e with SandboxStart | SandboxStop => true | _ => false end.



(** The messages a trace hands to the caller, in order. *)
Fixpoint yields (tr : list effect) : list string :=
  match tr with
  | [] => []
  | Yield msg :: tr' => msg :: yields tr'
  | _ :: tr' => yields tr'
  end.

End Effects.

(** ** utils/data.py *)
Module Data.
Import PyStr Effects.

(** The items of [team.run_stream]: a chat message of a participant, the
    final task result, or an event of any other class. *)
Inductive message : Set :=
| TextMessage (source content : string)
| TaskResult (stop_reason : option string)
| OtherEvent.

(** One pass over an asynchronous stream: the items it produces and, when
    the iteration ends by an exception, that exception. *)
Record stream : Set := { items : list message; raised : option exn }.

(** The command-line executor (the execution sandbox) by what its calls
    answer: whether [start()] raises, and whether the [n]-th later call of
    [stop()] raises; [stop_calls] counts the calls made so far. *)
Record executor : Set := {
  start_raises : option exn;
  stop_raises : nat -> option exn;
  stop_calls : nat
}.

(** [await local_executor.stop()]: the answer and the executor afterwards. *)
Definition stop (e : executor) : option exn * executor :=
  (stop_raises e (stop_calls e),
   {| start_raises := start_raises e;
      stop_raises := stop_raises e;
      stop_calls := S (stop_calls e) |}).

(** [f"{x}"] for an optional string. *)
Definition format_optional (x : option string) : string :=
  match x with Some s => s | None => "None" end.

(** The body of the [async for] of [orchestrate] for one item. *)
Definition relay (message : message) : list effect :=
  match message with
  | TextMessage source content =>
      let msg := source ++ ": " ++ content in [Print msg; Yield msg]
  | TaskResult stop_reason =>
      let msg := "Stopping reason: " ++ format_optional stop_reason in
      [Print msg; Yield msg]
  | OtherEvent => []
  end.

(** [orchestrate(team, local_executor, task)], run to its end by a caller
    that takes every item.  [team] is the team by its [run_stream] method.
    The result is the trace of the call, how it ended, and the executor
    afterwards. *)
Definition orchestrate (team : string -> stream) (local_executor : executor)
    (task : string) : list effect * outcome * executor :=
  match start_raises local_executor with
  | Some e =>
      ([SandboxStart; Print ("Executor failed to start: " ++ e)],
       Raised e, local_executor)
  | None =>
      let run := team task in
      let body := RunStream task :: flat_map relay (items run) in
      let '(stop_failed, local_executor') := stop local_executor in
      let cleanup :=
        match stop_failed with
        | Some e => [SandboxStop; Print ("Failed to stop executor cleanly: " ++ e)]
        | None => [SandboxStop]
        end in
      ((SandboxStart :: body ++ cleanup)%list,
       match raised run with Some e => Raised e | None => Returned end,
       local_executor')
  end.

(** The text an item of the stream is relayed as, if it is relayed. *)
Definition relayed (m : message) : list string := yields (relay m).


(** *** The round-robin team *)








End Data.

(** ** The file system seen through [pathlib] and [shutil] *)
Module FS.
Import PyStr.

(** An absolute, resolved path, as its components below the root.  The
    sources hold no symbolic links, so [Path.resolve()] is the identity and
    two paths name one file exactly when they are equal. *)
Definition path := list string.

Inductive kind : Set :=
| RegularFile (data : string)
| Directory.

Record node : Set := { node_kind : kind; st_mtime : Z }.

(** The entries of the file system, in the order in which the operating
    system enumerates them. *)
Definition filesystem := list (path * node).

Definition path_eqb (p q : path) : bool :=
  if list_eq_dec string_dec p q then true else false.

(** [dir / name] *)
Definition child (dir : path) (name : string) : path := (dir ++ [name])%list.

(** [p.name] *)
Definition name (p : path) : string := last p "".

(** [p.parent] *)
Definition parent (p : path) : path := removelast p.

(** [str(p)] *)
Definition str (p : path) : string := "/" ++ join "/" p.

(** [p.suffix]: the name from its last dot on, unless that dot is the first
    or the last character of the name. *)
Definition suffix (p : path) : string :=
  match name p with
  | EmptyString => ""
  | String _ rest =>
      match from_last_dot rest with
      | Some t => if (String.length t =? 1)%nat then "" else t
      | None => ""
      end
  end.

Fixpoint lookup (fs : filesystem) (p : path) : option node :=
  match fs with
  | [] => None
  | (q, n) :: fs' => if path_eqb q p then Some n else lookup fs' p
  end.

(** [p.exists()], [p.is_file()], [p.is_dir()] *)
Definition exists_ (fs : filesystem) (p : path) : bool :=
  match lookup fs p with Some _ => true | None => false end.

Definition is_file (fs : filesystem) (p : path) : bool :=
  match lookup fs p with
  | Some {| node_kind := RegularFile _ |} => true
  | _ => false
  end.

Definition is_dir (fs : filesystem) (p : path) : bool :=
  match lookup fs p with
  | Some {| node_kind := Directory |} => true
  | _ => false
  end.

(** [p] is an entry of the directory [dir]. *)
Definition is_child (dir p : path) : bool :=
  match p with
  | [] => false
  | _ :: _ => path_eqb (parent p) dir
  end.

(** [dir.iterdir()], in enumeration order. *)
Definition iterdir (fs : filesystem) (dir : path) : list path :=
  map fst (filter (fun e => is_child dir (fst e)) fs).

(** [p] is [dir] or lies below it. *)
Fixpoint below (dir p : path) : bool :=
  match dir, p with
  | [], _ => true
  | d :: dir', c :: p' => (d =? c) && below dir' p'
  | _ :: _, [] => false
  end.

(** The comparison of two [Path] objects: component by component, each as
    strings. *)
Fixpoint path_leb (p q : path) : bool :=
  match p, q with
  | [], _ => true
  | _ :: _, [] => false
  | a :: p', b :: q' =>
      match String.compare a b with
      | Lt => true
      | Gt => false
      | Eq => path_leb p' q'
      end
  end.

(** Writing the node [n] at [p]: an existing entry is replaced in place, a
    new one is enumerated last. *)
Fixpoint write (fs : filesystem) (p : path) (n : node) : filesystem :=
  match fs with
  | [] => [(p, n)]
  | (q, m) :: fs' =>
      if path_eqb q p then (q, n) :: fs' else (q, m) :: write fs' p n
  end.

(** Removing the entry at [p]. *)
Definition remove (fs : filesystem) (p : path) : filesystem :=
  filter (fun e => negb (path_eqb (fst e) p)) fs.

(** Removing [dir] with everything below it. *)
Definition remove_tree (fs : filesystem) (dir : path) : filesystem :=
  filter (fun e => negb (below dir (fst e))) fs.

End FS.

(** ** app.py: prompt parsing *)
Module Prompt.
Import PyStr.

(** The dictionary [col_map] of [parse_columns], in insertion order (the
    order in which a Python dict is iterated). *)
Definition col_map : list (string * string) :=
  [ ("temp one", "temperature_one");
    ("temperature one", "temperature_one");
    ("temp1", "temperature_one");
    ("temp two", "temperature_two");
    ("temperature two", "temperature_two");
    ("temp2", "temperature_two");
    ("vibration x", "vibration_x");
    ("vib x", "vibration_x");
    ("vibration y", "vibration_y");
    ("vib y", "vibration_y");
    ("vibration z", "vibration_z");
    ("vib z", "vibration_z") ].

(** The regular expression classes [\d] and [\w]. *)
Definition is_digit (c : ascii) : bool :=
  (("0" <=? c) && (c <=? "9"))%char.

Definition is_word (c : ascii) : bool :=
  is_digit c
  || (("a" <=? c) && (c <=? "z"))%char
  || (("A" <=? c) && (c <=? "Z"))%char
  || (c =? "_")%char.

(** Whether the character next to a position, if there is one, is a word
    character; the edges of the string count as non-word. *)
Definition wordish (c : option ascii) : bool :=
  match c with Some c => is_word c | None => false end.

(** [\b] at a position: exactly one of the characters around it is a word
    character. *)
Definition word_boundary (prev next : option ascii) : bool :=
  xorb (wordish prev) (wordish next).

(** The first character of a string, if any. *)
Definition peek (s : string) : option ascii :=
  match s with EmptyString => None | String c _ => Some c end.

(** [s] without the literal [lit] at its start. *)
Fixpoint strip_literal (lit s : string) : option string :=
  match lit, s with
  | EmptyString, _ => Some s
  | String a lit', String b s' =>
      if (a =? b)%char then strip_literal lit' s' else None
  | String _ _, EmptyString => None
  end.

(** [(\d+)\b] at the start of [s]: the group is greedy, so a further digit
    is taken whenever the rest still matches, and the match ends after the
    current digit only when taking more fails. *)
Fixpoint match_digits (s : string) : option string :=
  match s with
  | EmptyString => None
  | String c s' =>
      if is_digit c then
        match match_digits s' with
        | Some more => Some (String c more)
        | None =>
            if word_boundary (Some c) (peek s') then Some (String c EmptyString)
            else None
        end
      else None
  end.

(** [\bdata(\d+)\b] anchored at a position whose previous character is
    [prev]; the result is group 1. *)
Definition match_here (prev : option ascii) (s : string) : option string :=
  if word_boundary prev (peek s) then
    match strip_literal "data" s with
    | Some rest => match_digits rest
    | None => None
    end
  else None.

(** [re.search] from a position on: the leftmost position that matches. *)
Fixpoint search_from (prev : option ascii) (s : string) : option string :=
  match match_here prev s with
  | Some group => Some group
  | None =>
      match s with
      | EmptyString => None
      | String c s' => search_from (Some c) s'
      end
  end.

(** [re.search(r"\bdata(\d+)\b", s)], as group 1 of the match. *)
Definition re_search_dataset (s : string) : option string :=
  search_from None s.

(** The list comprehension [[v for k, v in table.items() if k in text]]. *)
Definition matched_columns (table : list (string * string)) (text : string)
  : list string :=
  map snd (filter (fun kv => contains (fst kv) text) table).

(** [parse_columns(prompt)] *)
Definition parse_columns (prompt : string) : list string * option string :=
  let prompt_lower := lower prompt in
  let dataset_match := re_search_dataset prompt_lower in
  let dataset :=
    match dataset_match with
    | Some group1 => Some ("data" ++ group1)
    | None => None
    end in
  let columns := matched_columns col_map prompt_lower in
  (columns, dataset).

(** *** Vocabulary for the statements about [parse_columns] *)


(** The last character of [pre], or [prev] when [pre] is empty. *)
Fixpoint end_of (prev : option ascii) (pre : string) : option ascii :=
  match pre with
  | EmptyString => prev
  | String c pre' => end_of (Some c) pre'
  end.

(** Every character of the string is a digit. *)
Fixpoint all_digits (s : string) : bool :=
  match s with
  | EmptyString => true
  | String c s' => is_digit c && all_digits s'
  end.

(** [text] reads [pre ++ "data" ++ ds ++ post] where [ds] is a non-empty run
    of digits and the token [data<ds>] stands alone: no word character
    before it (the text before [pre] ends with [prev]) and none after it. *)
Definition token_at (prev : option ascii) (text pre ds post : string) : Prop :=
  text = pre ++ "data" ++ ds ++ post /\
  ds <> EmptyString /\
  all_digits ds = true /\
  wordish (end_of prev pre) = false /\
  wordish (peek post) = false.


End Prompt.

(** ** app.py *)
Module App.
Import PyStr Effects Data FS Prompt.

(** [DATA_EXTS], the set of recognized dataset extensions. *)
Definition DATA_EXTS : list string := [".csv"; ".tsv"; ".xlsx"; ".xls"; ".json"].

(** The serialized team state kept between runs. *)
Definition blob := list message.

(** [st.session_state], by the keys the sources use. *)
Record session_state : Set := {
  messages : list string;
  last_plot : option path;              (* [LAST_PLOT_KEY], the persistent slot *)
  last_plot_filename : option string;
  team_state : option blob;
  last_code_developer_msg : option string
}.

Definition set_plot (s : session_state) (p : path) (filename : string)
  : session_state :=
  {| messages := messages s;
     last_plot := Some p;
     last_plot_filename := Some filename;
     team_state := team_state s;
     last_code_developer_msg := last_code_developer_msg s |}.

Definition set_team_state (s : session_state) (b : blob) : session_state :=
  {| messages := messages s;
     last_plot := last_plot s;
     last_plot_filename := last_plot_filename s;
     team_state := Some b;
     last_code_developer_msg := last_code_developer_msg s |}.

Definition set_last_developer_msg (s : session_state) (m : option string)
  : session_state :=
  {| messages := match m with Some msg => [msg] | None => [] end;
     last_plot := last_plot s;
     last_plot_filename := last_plot_filename s;
     team_state := team_state s;
     last_code_developer_msg := m |}.

(** What the program can change: the files and the session. *)
Record state : Set := { fs : filesystem; session : session_state }.

(** The answers of the outside world during the handling of one prompt. *)
Record world : Type := {
  TEMP_DIR : path;                       (* [BASE_DIR / "temp"] *)
  cwd : path;                            (* the working directory *)
  clock : Z;                             (* the time stamp of new entries *)
  uuid4_hex : string;                    (* [uuid.uuid4().hex] *)
  set_order : list string;               (* the order a loop visits [DATA_EXTS] in *)
  copy2_raises : path -> path -> option exn;
  unlink_raises : path -> option exn;
  rmtree_raises : path -> option exn;
  read_raises : path -> option exn;      (* the [pd.read_*] call on a file *)
  render_report : path -> list string -> string;     (* the bytes of the PDF *)
  local_executor : executor;             (* the sandbox [team_config] returns *)
  loop_files : filesystem -> filesystem; (* the files after the code blocks of
                                            the run were executed, from the
                                            files before *)
  team_run_stream : option blob -> string -> stream;
                                         (* the team [team_config] returns, by
                                            its stream for the state loaded
                                            into it and the task *)
  load_state_raises : blob -> option exn;
  save_state : option blob -> string -> exn + blob
}.

(** *** File operations that can fail *)

(** [shutil.copy2(src, dst)]; [dst] keeps the data and the time stamp of
    [src].  No destination of the sources names an existing directory: both
    lie under the fresh run identifier. *)
Definition copy2 (w : world) (fs : filesystem) (src dst : path)
  : exn + filesystem :=
  match copy2_raises w src dst with
  | Some e => inl e
  | None =>
      match lookup fs src with
      | Some {| node_kind := RegularFile data; st_mtime := t |} =>
          inr (write fs dst {| node_kind := RegularFile data; st_mtime := t |})
      | Some {| node_kind := Directory |} => inl "IsADirectoryError"
      | None => inl "FileNotFoundError"
      end
  end.

(** [p.unlink()] *)
Definition unlink (w : world) (fs : filesystem) (p : path) : exn + filesystem :=
  match unlink_raises w p with
  | Some e => inl e
  | None =>
      match lookup fs p with
      | Some {| node_kind := RegularFile _ |} => inr (remove fs p)
      | Some {| node_kind := Directory |} => inl "IsADirectoryError"
      | None => inl "FileNotFoundError"
      end
  end.

(** [shutil.rmtree(dir)] *)
Definition rmtree (w : world) (fs : filesystem) (dir : path) : exn + filesystem :=
  match rmtree_raises w dir with
  | Some e => inl e
  | None => inr (remove_tree fs dir)
  end.

(** [dir.mkdir(parents=True, exist_ok=True)]; the parent is [TEMP_DIR], which
    exists. *)
Definition mkdir (w : world) (fs : filesystem) (dir : path) : exn + filesystem :=
  match lookup fs dir with
  | Some {| node_kind := Directory |} => inr fs
  | Some {| node_kind := RegularFile _ |} => inl "FileExistsError"
  | None => inr (write fs dir {| node_kind := Directory; st_mtime := clock w |})
  end.

(** *** Dataset resolution *)

(** The test of the scanning loop of [find_dataset_path]. *)
Definition is_dataset_file (fs : filesystem) (p : path) : bool :=
  is_file fs p && startswith (name p) "data" && mem (lower (suffix p)) DATA_EXTS.

(** [find_dataset_path(dataset_name)].  A name that is [None] or empty is
    false in the test [if dataset_name:]. *)
Definition find_dataset_path (w : world) (fs : filesystem)
    (dataset_name : option string) : option path :=
  match dataset_name with
  | Some (String _ _ as dataset_name) =>
      find (exists_ fs)
           (map (fun ext => child (TEMP_DIR w) (dataset_name ++ ext)) (set_order w))
  | _ =>
      find (is_dataset_file fs) (sorted path_leb (iterdir fs (TEMP_DIR w)))
  end.

(** *** The clean-up at the start of a prompt *)

(** [p] is the file of the persistent slot. *)
Definition is_persistent (s : session_state) (p : path) : bool :=
  match last_plot s with
  | Some persistent_path => path_eqb p persistent_path
  | None => false
  end.

(** One pass of the loop that deletes the PNG files of [TEMP_DIR] other than
    the persistent plot: the files and the console lines so far, then the
    entry [p]. *)
Definition clean_step (w : world) (s : session_state)
    (acc : filesystem * list effect) (p : path) : filesystem * list effect :=
  let '(fs, tr) := acc in
  if is_file fs p && (lower (suffix p) =? ".png") then
    if is_persistent s p then acc
    else
      match unlink w fs p with
      | inr fs' => (fs', tr)
      | inl e => (fs, tr ++ [Print ("Could not delete " ++ str p ++ ": " ++ e)])%list
      end
  else acc.

Definition clean_stale_plots (w : world) (st : state) : state * list effect :=
  let '(fs', tr) :=
    fold_left (clean_step w (session st)) (iterdir (fs st) (TEMP_DIR w)) (fs st, []) in
  ({| fs := fs'; session := session st |}, tr).

(** *** The report branch *)

(** The [pd.read_*] chain: [inl e] when the reader raises, [inr false] when
    no reader applies ([df = None]), [inr true] when a data frame is read. *)
Definition read_dataset (w : world) (file_path : path) : exn + bool :=
  let sfx := lower (suffix file_path) in
  if (sfx =? ".csv") || (sfx =? ".tsv") || mem sfx [".xlsx"; ".xls"]
     || (sfx =? ".json")
  then match read_raises w file_path with
       | Some e => inl e
       | None => inr true
       end
  else inr false.

(** [generate_pdf_report]: the document is written to
    [report/sensor_report.pdf] below the working directory. *)
Definition pdf_path (w : world) : path :=
  child (child (cwd w) "report") "sensor_report.pdf".

Definition generate_pdf_report (w : world) (fs : filesystem) (dataset : path)
    (columns : list string) : filesystem :=
  let report_dir := child (cwd w) "report" in
  let fs1 :=
    if exists_ fs report_dir then fs
    else write fs report_dir {| node_kind := Directory; st_mtime := clock w |} in
  write fs1 (pdf_path w)
        {| node_kind := RegularFile (render_report w dataset columns);
           st_mtime := clock w |}.

(** The body of [if "report" in prompt.lower() and columns_to_report:]. *)
Definition report_branch (w : world) (st : state) (columns_to_report : list string)
    (dataset : option string) : state * list effect :=
  match find_dataset_path w (fs st) dataset with
  | Some file_path =>
      match read_dataset w file_path with
      | inl e => (st, [StError ("Failed to load dataset: " ++ e)])
      | inr false => (st, [])
      | inr true =>
          ({| fs := generate_pdf_report w (fs st) file_path columns_to_report;
              session := session st |},
           [GenerateReport file_path columns_to_report;
            StSuccess "📄 PDF report generated successfully!";
            StDownload (pdf_path w)])
      end
  | None => (st, [StWarning "⚠️ Uploaded dataset not found."])
  end.

(** *** The agent branch: [query()] *)

(** One pass of the loop that seeds the run directory with the uploaded
    datasets. *)
Definition seed_step (w : world) (run_dir : path)
    (acc : filesystem * list effect) (p : path) : filesystem * list effect :=
  let '(fs, tr) := acc in
  if is_file fs p && startswith (name p) "data" then
    match copy2 w fs p (child run_dir (name p)) with
    | inr fs' => (fs', tr)
    | inl e =>
        (fs, tr ++ [Print ("Warning: could not copy " ++ str p
                           ++ " into run_dir: " ++ e)])%list
    end
  else acc.

Definition seed_run_dir (w : world) (fs : filesystem) (run_dir : path)
  : filesystem * list effect :=
  fold_left (seed_step w run_dir) (iterdir fs (TEMP_DIR w)) (fs, []).

(** The list [file_paths] and the task handed to the loop. *)
Definition file_paths (fs : filesystem) (run_dir : path) : list string :=
  map str (filter (is_dataset_file fs) (iterdir fs run_dir)).

Definition newline : string := String (ascii_of_nat 10) EmptyString.

Definition make_task (prompt : string) (file_paths : list string) : string :=
  prompt ++ newline ++ "Available datasets: " ++ join ", " file_paths.

(** The body of the [async for] of [query]: the last three turn messages. *)
Definition keep_non_meta (non_meta_messages : list string) (msg : string)
  : list string :=
  if startswith msg "code_executor" || startswith msg "code_developer" then
    let appended := (non_meta_messages ++ [msg])%list in
    if (3 <? List.length appended)%nat then tl appended else appended
  else non_meta_messages.

(** [sorted(run_dir.glob("*.png"), key=lambda p: p.stat().st_mtime)] *)
Definition mtime (fs : filesystem) (p : path) : Z :=
  match lookup fs p with Some n => st_mtime n | None => 0%Z end.

Definition glob_png (fs : filesystem) (run_dir : path) : list path :=
  filter (fun p => endswith (name p) ".png") (iterdir fs run_dir).

Definition pngs_by_mtime (fs : filesystem) (run_dir : path) : list path :=
  sorted (fun p q => (mtime fs p <=? mtime fs q)%Z) (glob_png fs run_dir).

(** The promotion of the latest plot of the run into the persistent slot
    (the second [try] of the [finally] block). *)
Definition promote (w : world) (run_id : string) (run_dir : path) (st : state)
  : state * list effect :=
  let pngs := pngs_by_mtime (fs st) run_dir in
  match pngs with
  | [] => (st, [])
  | _ :: _ =>
      let latest_png := last pngs [] in
      let dest := child (TEMP_DIR w) (run_id ++ "_" ++ name latest_png) in
      let previous_path := last_plot (session st) in
      match copy2 w (fs st) latest_png dest with
      | inl e =>
          (st, [Print ("Warning: failed to copy plot to persistent storage: " ++ e)])
      | inr fs1 =>
          let session1 := set_plot (session st) dest (name dest) in
          match previous_path with
          | Some previous_path =>
              if exists_ fs1 previous_path && negb (path_eqb previous_path dest)
              then
                match unlink w fs1 previous_path with
                | inr fs2 => ({| fs := fs2; session := session1 |}, [])
                | inl e =>
                    ({| fs := fs1; session := session1 |},
                     [Print ("Warning: could not remove previous persistent plot: "
                             ++ e)])
                end
              else ({| fs := fs1; session := session1 |}, [])
          | None => ({| fs := fs1; session := session1 |}, [])
          end
      end
  end.

(** The last [try] of the [finally] block: the run directory is removed. *)
Definition destroy_run (w : world) (run_dir : path) (st : state)
  : state * list effect :=
  if exists_ (fs st) run_dir && is_dir (fs st) run_dir then
    match rmtree w (fs st) run_dir with
    | inr fs' => ({| fs := fs'; session := session st |}, [])
    | inl e => (st, [Print ("Warning: could not remove run_dir: " ++ e)])
    end
  else (st, []).

(** The first [try] of the [finally] block: the team state is saved into
    the session. *)
Definition save_team_state (w : world) (loaded : option blob) (task : string)
    (st : state) : state * list effect :=
  match save_state w loaded task with
  | inr b => ({| fs := fs st; session := set_team_state (session st) b |}, [])
  | inl e => (st, [Print ("Warning: failed to save team state: " ++ e)])
  end.

(** The [finally] block of [query]: the team state is saved, the latest
    plot promoted, the sandbox stopped and the run directory removed. *)
Definition cleanup (w : world) (run_id : string) (run_dir : path)
    (loaded : option blob) (task : string) (local : executor) (st : state)
  : state * list effect * executor :=
  let '(st1, tr_save) := save_team_state w loaded task st in
  let '(st2, tr_promote) := promote w run_id run_dir st1 in
  let '(_, local') := stop local in
  let '(st3, tr_destroy) := destroy_run w run_dir st2 in
  (st3, (tr_save ++ tr_promote ++ [SandboxStop] ++ tr_destroy)%list, local').

(** The state a fresh team is given: the one kept in the session, unless
    there is none or [team.load_state] raises. *)
Definition load_team_state (w : world) (s : session_state)
  : option blob * list effect :=
  match team_state s with
  | Some b =>
      match load_state_raises w b with
      | Some e => (None, [Print ("Warning: failed to load team state: " ++ e)])
      | None => (Some b, [])
      end
  | None => (None, [])
  end.

(** [query()]: the result is the state and the trace of the call, how it
    ended, and the executor of the run afterwards (none when the run
    directory could not be made). *)
Definition query (w : world) (prompt : string) (st : state)
  : state * list effect * outcome * option executor :=
  let run_id := uuid4_hex w in
  let run_dir := child (TEMP_DIR w) run_id in
  match mkdir w (fs st) run_dir with
  | inl e => (st, [], Raised e, None)
  | inr fs0 =>
      let '(fs1, tr_seed) := seed_run_dir w fs0 run_dir in
      let local := local_executor w in
      let '(loaded, tr_load) := load_team_state w (session st) in
      let task := make_task prompt (file_paths fs1 run_dir) in
      let '(tr_loop, ended, local1) :=
        orchestrate (team_run_stream w loaded) local task in
      let fs2 :=
        match start_raises local with
        | None => loop_files w fs1
        | Some _ => fs1
        end in
      let non_meta_messages := fold_left keep_non_meta (yields tr_loop) [] in
      let '(st1, tr_cleanup, local2) :=
        cleanup w run_id run_dir loaded task local1
                {| fs := fs2; session := session st |} in
      let tr := (tr_seed ++ tr_load ++ tr_loop ++ tr_cleanup)%list in
      match ended with
      | Raised e => (st1, tr, Raised e, Some local2)
      | Returned =>
          let last_developer_msg :=
            find (fun msg => startswith msg "code_developer")
                 (rev non_meta_messages) in
          ({| fs := fs st1;
              session := set_last_developer_msg (session st1) last_developer_msg |},
           tr, Returned, Some local2)
      end
  end.

(** *** Routing *)

(** The body of [if prompt:] from the clean-up on. *)
Definition handle_prompt (w : world) (prompt : string) (st : state)
  : state * list effect * outcome :=
  let '(st0, tr_clean) := clean_stale_plots w st in
  let '(columns_to_report, dataset) := parse_columns prompt in
  if contains "report" (lower prompt)
     && match columns_to_report with [] => false | _ :: _ => true end
  then
    let '(st1, tr) := report_branch w st0 columns_to_report dataset in
    (st1, (tr_clean ++ tr)%list, Returned)
  else
    let '(st1, tr, ended, _) := query w prompt st0 in
    (st1, (tr_clean ++ tr)%list, ended).

(** *** Vocabulary for the statements about [query] *)

(** The persistent slot is in order: when it is set, it names a regular
    file that lies directly in [TEMP_DIR]. *)
Definition slot_ok (w : world) (st : state) : Prop :=
  forall p, last_plot (session st) = Some p ->
    (exists x, p = child (TEMP_DIR w) x) /\ is_file (fs st) p = true.

(** The executor [e] with other answers of [stop()]. *)
Definition with_stop_raises (e : executor) (answers : nat -> option exn)
  : executor :=
  {| start_raises := start_raises e;
     stop_raises := answers;
     stop_calls := stop_calls e |}.

(** The world [w] with another sandbox. *)
Definition with_executor (w : world) (e : executor) : world :=
  {| TEMP_DIR := TEMP_DIR w; cwd := cwd w; clock := clock w;
     uuid4_hex := uuid4_hex w; set_order := set_order w;
     copy2_raises := copy2_raises w; unlink_raises := unlink_raises w;
     rmtree_raises := rmtree_raises w; read_raises := read_raises w;
     render_report := render_report w;
     local_executor := e;
     loop_files := loop_files w;
     team_run_stream := team_run_stream w;
     load_state_raises := load_state_raises w;
     save_state := save_state w |}.

End App.

(** ** Sample inputs

    A small workspace and world on which the statements below are
    exercised. *)
Module Samples.
Import PyStr Effects Data FS Prompt App.

Definition temp : path := ["srv"; "app"; "temp"].

Definition file (data : string) (t : Z) : node :=
  {| node_kind := RegularFile data; st_mtime := t |}.

Definition dir (t : Z) : node := {| node_kind := Directory; st_mtime := t |}.

(** An executor whose calls all succeed. *)
Definition calm_executor : executor :=
  {| start_raises := None; stop_raises := fun _ => None; stop_calls := 0 |}.

(** A team that answers one developer turn and stops. *)
Definition one_turn_stream (task : string) : stream :=
  {| items := [TextMessage "code_developer" "done TERMINATE";
               TaskResult (Some "phrase")];
     raised := None |}.

(** A world in which no call fails; the run identifier is [run1]. *)
Definition calm_world : world :=
  {| TEMP_DIR := temp;
     cwd := ["srv"; "app"];
     clock := 100%Z;
     uuid4_hex := "run1";
     set_order := [".json"; ".csv"; ".xls"; ".tsv"; ".xlsx"];
     copy2_raises := fun _ _ => None;
     unlink_raises := fun _ => None;
     rmtree_raises := fun _ => None;
     read_raises := fun _ => None;
     render_report := fun _ _ => "%PDF";
     local_executor := calm_executor;
     loop_files := fun fs => fs;
     team_run_stream := fun _ => one_turn_stream;
     load_state_raises := fun _ => None;
     save_state := fun _ _ => inr [] |}.

(** A workspace with two uploaded datasets, a text file and the plot of an
    earlier run. *)
Definition workspace : filesystem :=
  [ (temp, dir 1);
    (child temp "data2.csv", file "b" 3);
    (child temp "notes.txt", file "n" 4);
    (child temp "data1.json", file "a" 2);
    (child temp "run0_plot.png", file "old" 5) ].

(** The workspace when the loop of run [run1] has ended without writing a
    plot: the run directory holds the copies of the datasets and a text
    file. *)
Definition after_plain_run : filesystem :=
  (workspace ++
   [ (child temp "run1", dir 100);
     (child (child temp "run1") "data2.csv", file "b" 3);
     (child (child temp "run1") "data1.json", file "a" 2);
     (child (child temp "run1") "out.txt", file "42" 101) ])%list.

(** The same when the loop has written two plots. *)
Definition after_plot_run : filesystem :=
  (after_plain_run ++
   [ (child (child temp "run1") "first.png", file "p1" 102);
     (child (child temp "run1") "second.png", file "p2" 105);
     (child (child temp "run1") "third.png", file "p3" 103) ])%list.

Definition empty_session : session_state :=
  {| messages := []; last_plot := None; last_plot_filename := None;
     team_state := None; last_code_developer_msg := None |}.

Definition session_with_plot : session_state :=
  {| messages := [];
     last_plot := Some (child temp "run0_plot.png");
     last_plot_filename := Some "run0_plot.png";
     team_state := None; last_code_developer_msg := None |}.

End Samples.

(** ** app.py: the name of a generated plot in a message *)
Module Generated.
Import PyStr Prompt.

(** The regular expression class [\s] on ASCII: the blank, the control
    characters 9 to 13 and the separators 28 to 31. *)
Definition is_space (c : ascii) : bool :=
  let n := nat_of_ascii c in
  ((9 <=? n) && (n <=? 13) || (28 <=? n) && (n <=? 31) || (n =? 32))%nat.

(** [([^\s]+\.png)] at the start of [s]: the class is greedy, so one more
    character is taken whenever the rest still matches, and the literal
    [.png] is tried after the current character only when taking more
    fails.  The result is the text of the group. *)
Fixpoint match_name (s : string) : option string :=
  match s with
  | EmptyString => None
  | String c s' =>
      if is_space c then None
      else
        match match_name s' with
        | Some more => Some (String c more)
        | None =>
            match strip_literal ".png" s' with
            | Some _ => Some (String c ".png")
            | None => None
            end
        end
  end.

(** [GENERATED:([^\s]+\.png)] anchored at the start of [s]. *)
Definition match_generated (s : string) : option string :=
  match strip_literal "GENERATED:" s with
  | Some rest => match_name rest
  | None => None
  end.

(** [re.search]: the leftmost position that matches. *)
Fixpoint search_generated (s : string) : option string :=
  match match_generated s with
  | Some group => Some group
  | None =>
      match s with
      | EmptyString => None
      | String _ s' => search_generated s'
      end
  end.

(** [get_filename_from_msg(msg)] *)
Definition get_filename_from_msg (msg : string) : option string :=
  search_generated msg.

(** *** Vocabulary for the statements about [get_filename_from_msg] *)




End Generated.


(** ** app.py: the upload of datasets *)
Module Upload.
Import PyStr Effects FS App.

(** One pass of the loop of [clean_temp_keep_persistent_plot]: every regular
    file of [TEMP_DIR] other than the persistent plot is deleted; a failure
    is logged and the loop goes on. *)
Definition clean_temp_step (w : world) (s : session_state)
    (acc : filesystem * list effect) (existing_path : path)
  : filesystem * list effect :=
  let '(fs, tr) := acc in
  if is_file fs existing_path then
    if is_persistent s existing_path then acc
    else
      match unlink w fs existing_path with
      | inr fs' => (fs', tr)
      | inl e =>
          (fs, tr ++ [Print ("Could not remove " ++ str existing_path
                             ++ ": " ++ e)])%list
      end
  else acc.

(** [clean_temp_keep_persistent_plot()] *)
Definition clean_temp_keep_persistent_plot (w : world) (st : state)
  : state * list effect :=
  let '(fs', tr) :=
    fold_left (clean_temp_step w (session st))
              (iterdir (fs st) (TEMP_DIR w)) (fs st, []) in
  ({| fs := fs'; session := session st |}, tr).

(** An element of [uploaded_files]: its [name] and the bytes of
    [getbuffer()]. *)
Record uploaded_file : Set := { file_name : string; getbuffer : string }.

(** [f"{idx}"]: the decimal numeral of the index. *)
Definition decimal (n : nat) : string :=
  NilEmpty.string_of_uint (Nat.to_uint n).

(** [Path(file.name).suffix.lower()] *)
Definition file_extension (file : uploaded_file) : string :=
  lower (suffix [file_name file]).

(** [f"data{idx}{file_extension}"] *)
Definition stored_name (idx : nat) (file : uploaded_file) : string :=
  "data" ++ decimal idx ++ file_extension file.

(** [with open(new_path, "wb") as f: f.write(data)]: the file is made or
    overwritten; the call raises when the path names a directory, or when
    the operating system refuses ([open_raises]). *)
Definition open_wb (w : world) (open_raises : path -> option exn)
    (fs : filesystem) (new_path : path) (data : string) : exn + filesystem :=
  match open_raises new_path with
  | Some e => inl e
  | None =>
      if is_dir fs new_path then inl "IsADirectoryError"
      else inr (write fs new_path
                  {| node_kind := RegularFile data; st_mtime := clock w |})
  end.

(** The loop [for idx, file in enumerate(uploaded_files, 1)], from the index
    [idx] on.  An exception of [open] is not caught: it ends the loop. *)
Fixpoint store_uploads (w : world) (open_raises : path -> option exn)
    (idx : nat) (uploaded_files : list uploaded_file) (fs : filesystem)
  : filesystem * list effect * outcome :=
  match uploaded_files with
  | [] => (fs, [], Returned)
  | file :: rest =>
      let new_path := child (TEMP_DIR w) (stored_name idx file) in
      match open_wb w open_raises fs new_path (getbuffer file) with
      | inl e => (fs, [], Raised e)
      | inr fs1 =>
          let '(fs2, tr, ended) := store_uploads w open_raises (S idx) rest fs1 in
          (fs2,
           StSuccess ("✅ File '" ++ file_name file ++ "' uploaded as '"
                      ++ stored_name idx file ++ "'.") :: tr,
           ended)
      end
  end.

(** The body of [if uploaded_files:] with what goes before it: an empty
    list is false in the test. *)
Definition upload (w : world) (open_raises : path -> option exn)
    (uploaded_files : list uploaded_file) (st : state)
  : state * list effect * outcome :=
  match uploaded_files with
  | [] => (st, [], Returned)
  | _ :: _ =>
      let '(st0, tr_clean) := clean_temp_keep_persistent_plot w st in
      let '(fs', tr, ended) :=
        store_uploads w open_raises 1 uploaded_files (fs st0) in
      ({| fs := fs'; session := session st0 |}, (tr_clean ++ tr)%list, ended)
  end.

End Upload.


(** ** app.py: the chat history *)
Module History.
Import PyStr.

(** The test of the loop of [query] on a message, and the test of the
    search for [last_developer_msg]. *)
Definition is_turn_message (msg : string) : bool :=
  startswith msg "code_executor" || startswith msg "code_developer".

Definition is_developer_message (msg : string) : bool :=
  startswith msg "code_developer".

End History.


(** ** utils/report_generator.py: the statistics of a report entry *)
Module ReportStats.
Import PyStr ReportGenerator.

(** The dictionary [INTERPRETATIONS]. *)
Definition INTERPRETATIONS : list (string * string) :=
  [ ("temperature_one",
     "Represents the ambient room temperature. Stable values indicate consistent environmental conditions.");
    ("temperature_two",
     "Represents the machine’s internal temperature. High values, especially above 38°C, may indicate potential overheating risks.");
    ("vibration_x",
     "Measures vibration in the X direction. Abnormal values suggest potential mechanical issues.");
    ("vibration_y",
     "Measures vibration in the Y direction. Deviations may indicate misalignment.");
    ("vibration_z",
     "Measures vibration in the Z direction. High values could indicate operational inefficiencies.") ].

(** [table.get(key, default)] *)
Definition get (table : list (string * string)) (key default : string) : string :=
  match find (fun kv => fst kv =? key) table with
  | Some kv => snd kv
  | None => default
  end.

(** [INTERPRETATIONS.get(col, "No interpretation available.")] *)
Definition interpretation (col : string) : string :=
  get INTERPRETATIONS col "No interpretation available.".

Open Scope Q_scope.

(** [series.max()], [series.min()] and [series.mean()]; the result for an
    empty series is NaN, here [None]. *)
Definition Qmax (x y : Q) : Q := if Qle_bool x y then y else x.
Definition Qmin (x y : Q) : Q := if Qle_bool x y then x else y.

Definition series_max (series : list Q) : option Q :=
  match series with
  | [] => None
  | x :: rest => Some (fold_left Qmax rest x)
  end.

Definition series_min (series : list Q) : option Q :=
  match series with
  | [] => None
  | x :: rest => Some (fold_left Qmin rest x)
  end.

Definition series_sum (series : list Q) : Q := fold_left Qplus series 0.

Definition series_mean (series : list Q) : option Q :=
  match series with
  | [] => None
  | _ :: _ =>
      Some (series_sum series / inject_Z (Z.of_nat (List.length series)))
  end.

(** [statistics.mode(series)]: the values are counted, and the first value
    met whose count is the largest is returned; [None] stands for the
    [StatisticsError] of an empty series. *)
Definition occurrences (x : Q) (series : list Q) : nat :=
  List.length (filter (Qeq_bool x) series).

Definition more_common (series : list Q) (best : option Q) (x : Q) : option Q :=
  match best with
  | None => Some x
  | Some b =>
      if (occurrences b series <? occurrences x series)%nat then Some x
      else Some b
  end.

Definition mode (series : list Q) : option Q :=
  fold_left (more_common series) series None.

(** [round(x, 2)] of a number that may be NaN. *)
Definition round_number (x : option Q) : option Q := option_map round2 x.

(** The local variables of [format_stats]. *)
Record stats : Set := {
  avg : option Q;
  max_val : option Q;
  min_val : option Q;
  mean_val : option Q;
  mode_val : option Q;          (* [None] is the text [N/A] *)
  trend_dir : direction;
  trend_strength : Q
}.

Definition compute_stats (series : list Q) : stats :=
  {| avg := round_number (series_mean series);
     max_val := round_number (series_max series);
     min_val := round_number (series_min series);
     mean_val := round_number (series_mean series);
     mode_val := round_number (mode series);
     trend_dir := fst (calculate_trend series);
     trend_strength := snd (calculate_trend series) |}.

Definition direction_name (d : direction) : string :=
  match d with
  | increasing => "increasing"
  | decreasing => "decreasing"
  | stable => "stable"
  end.

(** [format_stats(name, series)].  [repr] is the text of a number in an
    f-string; NaN reads [nan]. *)
Definition format_stats (repr : Q -> string) (name : string) (series : list Q)
  : string :=
  let s := compute_stats series in
  let number x := match x with Some v => repr v | None => "nan" end in
  let mode_text := match mode_val s with Some v => repr v | None => "N/A" end in
  (name ++ ":" ++ App.newline
   ++ "Maximum: " ++ number (max_val s) ++ "°C, Minimum: " ++ number (min_val s)
   ++ "°C, Average: " ++ number (avg s) ++ "°C" ++ App.newline
   ++ "Mean: " ++ number (mean_val s) ++ "°C, Mode: " ++ mode_text ++ "°C"
   ++ App.newline
   ++ "Trend: " ++ direction_name (trend_dir s)
   ++ " (strength: " ++ repr (trend_strength s) ++ "%)" ++ App.newline)%string.

(** *** Vocabulary for the statements about the statistics *)


End ReportStats.

(** ** app.py: the rendering of the chat *)
Module ChatView.
Import PyStr FS App.

(** What is put on the page: a chat bubble with the message as its text, or
    an image. *)
Inductive widget : Set :=
| ChatMessage (role : string) (avatar : option string) (body : string)
| Image (file : path) (caption : option string).

(** The truth value of an optional string in a test. *)
Definition truthy (s : option string) : bool :=
  match s with
  | Some (String _ _) => true
  | _ => false
  end.

(** [show_message(container, msg)] *)
Definition show_message (fs : filesystem) (s : session_state) (msg : string)
  : list widget :=
  let bubble :=
    if startswith msg "code_developer" then ChatMessage "ai" None msg
    else if startswith msg "code_executor" then
      ChatMessage "executor" (Some "🤖") msg
    else if startswith msg "Stopping reason:" then ChatMessage "user" None msg
    else ChatMessage "ai" None msg in
  let persistent_filename := last_plot_filename s in
  let persistent_path := last_plot s in
  let show_img :=
    if truthy persistent_filename then true
    else
      match persistent_path with
      | Some p => negb (name p =? "")
      | None => false
      end in
  bubble ::
  match persistent_path with
  | Some img_path =>
      if show_img && exists_ fs img_path
      then [Image img_path persistent_filename]
      else []
  | None => []
  end.

(** The history as the script draws it on each run: every kept message,
    then the last generated plot. *)
Definition show_history (fs : filesystem) (s : session_state) : list widget :=
  (flat_map (show_message fs s) (messages s) ++
   match last_plot s with
   | Some plot_path =>
       if exists_ fs plot_path
       then [Image plot_path (Some "Last generated plot")]
       else []
   | None => []
   end)%list.

(** The texts of the chat bubbles of a page, in order. *)
Fixpoint bubbles (page : list widget) : list string :=
  match page with
  | [] => []
  | ChatMessage _ _ body :: page' => body :: bubbles page'
  | Image _ _ :: page' => bubbles page'
  end.

End ChatView.

(** ** Counting the calls of the sandbox in a trace *)
Module Lifecycle.
Import Effects.




End Lifecycle.

(** ** More sample inputs *)
Module MoreSamples.
Import PyStr Effects Data FS App Upload.

(** Two files handed to the uploader. *)
Definition two_uploads : list uploaded_file :=
  [ {| file_name := "Readings.CSV"; getbuffer := "r" |};
    {| file_name := "log.json"; getbuffer := "l" |} ].

(** The sample workspace with the plot of an earlier run in the slot. *)
Definition workspace_state : state :=
  {| fs := Samples.workspace; session := Samples.session_with_plot |}.

End MoreSamples.

(* ================================================================== *)
(** * Part II: properties                                              *)
(* ================================================================== *)

Section TrendFacts.
Import ReportGenerator.
Open Scope Q_scope.







End TrendFacts.

Section PromptFacts.
Import PyStr Prompt.

Example parse_columns_sample :
  parse_columns "report for temp one and vib z from data2"
  = (["temperature_one"; "vibration_z"], Some "data2").
Proof. reflexivity. Qed.

Example parse_columns_upper :
  parse_columns "Report: TEMP1, Vibration Y of DATA12." 
  = (["temperature_one"; "vibration_y"], Some "data12").
Proof. reflexivity. Qed.

Example parse_columns_no_token :
  parse_columns "metadata7 data_3 data4x mydata5 data" = ([], None).
Proof. reflexivity. Qed.

(** **** Substrings *)








(** **** The dataset pattern *)

Lemma is_digit_word (c : ascii) : is_digit c = true -> is_word c = true.
Proof. unfold is_word. intros ->. reflexivity. Qed.

Lemma strip_literal_iff (lit s rest : string) :
  strip_literal lit s = Some rest <-> s = lit ++ rest.
Proof.
  revert s. induction lit as [|a lit IH]; intros s; simpl.
  - split; [now intros [= ->]|now intros ->].
  - destruct s as [|b s]; [split; discriminate|].
    destruct (Ascii.eqb_spec a b) as [->|Hne].
    + rewrite IH. split; [now intros ->|now intros [= ->]].
    + split; [discriminate|]. intros [= E _]. congruence.
Qed.

Lemma match_digits_nonword (s : string) :
  wordish (peek s) = false -> match_digits s = None.
Proof.
  destruct s as [|c s]; simpl; [reflexivity|]. intros Hw.
  destruct (is_digit c) eqn:Ed; [|reflexivity].
  apply is_digit_word in Ed. congruence.
Qed.

Lemma match_digits_iff (s g : string) :
  match_digits s = Some g <->
  g <> EmptyString /\ all_digits g = true /\
  exists post, s = g ++ post /\ wordish (peek post) = false.
Proof.
  split.
  - revert g. induction s as [|c s IH]; intros g; simpl; [discriminate|].
    destruct (is_digit c) eqn:Ed; [|discriminate].
    destruct (match_digits s) as [more|] eqn:Em.
    + intros [= <-]. destruct (IH more eq_refl) as [_ [Hall [post [E Hw]]]].
      split; [discriminate|]. split; [simpl; now rewrite Ed|].
      exists post. simpl. now rewrite <- E.
    + destruct (word_boundary (Some c) (peek s)) eqn:Eb; [|discriminate].
      intros [= <-]. split; [discriminate|]. split; [simpl; now rewrite Ed|].
      exists s. split; [reflexivity|].
      unfold word_boundary in Eb. simpl in Eb.
      rewrite (is_digit_word c Ed) in Eb. simpl in Eb.
      now apply negb_true_iff in Eb.
  - intros [Hne [Hall [post [E Hw]]]]. subst s.
    revert Hne Hall. induction g as [|c g IH]; intros Hne Hall; [contradiction|].
    simpl in Hall. apply andb_true_iff in Hall as [Ed Hall].
    simpl. rewrite Ed. destruct g as [|c' g].
    + simpl. rewrite (match_digits_nonword post Hw).
      unfold word_boundary. simpl. rewrite (is_digit_word c Ed), Hw. reflexivity.
    + rewrite IH; [reflexivity|discriminate|exact Hall].
Qed.

Lemma match_here_iff (prev : option ascii) (s g : string) :
  match_here prev s = Some g <-> exists post, token_at prev s EmptyString g post.
Proof.
  unfold match_here, token_at. split.
  - destruct (word_boundary prev (peek s)) eqn:Eb; [|discriminate].
    destruct (strip_literal "data" s) as [rest|] eqn:Es; [|discriminate].
    apply strip_literal_iff in Es. subst s. intros Hm.
    apply match_digits_iff in Hm as [Hne [Hall [post [E Hw]]]].
    exists post. subst rest. repeat split; try assumption.
    unfold word_boundary in Eb. simpl in Eb. simpl.
    destruct (wordish prev); [discriminate|reflexivity].
  - intros [post [E [Hne [Hall [Hprev Hw]]]]]. subst s.
    simpl in Hprev. unfold word_boundary. rewrite Hprev.
    change (peek (EmptyString ++ "data" ++ g ++ post)) with (Some "d"%char).
    cbn [wordish xorb].
    replace (is_word "d") with true by reflexivity.
    replace (strip_literal "data" (EmptyString ++ "data" ++ g ++ post))
      with (Some (g ++ post)) by (symmetry; now apply strip_literal_iff).
    apply match_digits_iff. repeat split; try assumption.
    exists post. auto.
Qed.

Lemma search_from_unfold (prev : option ascii) (s : string) :
  search_from prev s =
  match match_here prev s with
  | Some group => Some group
  | None =>
      match s with
      | EmptyString => None
      | String c s' => search_from (Some c) s'
      end
  end.
Proof. destruct s; reflexivity. Qed.

Lemma token_at_shift (prev : option ascii) (c : ascii) (s pre ds post : string) :
  token_at prev (String c s) (String c pre) ds post <->
  token_at (Some c) s pre ds post.
Proof.
  unfold token_at. simpl. split; intros [E H]; (split; [|exact H]).
  - now inversion E.
  - now rewrite E.
Qed.

Lemma token_at_nonempty (prev : option ascii) (s pre ds post : string) :
  token_at prev s pre ds post ->
  match pre with
  | EmptyString => match_here prev s = Some ds
  | String c pre' => exists s', s = String c s' /\ token_at (Some c) s' pre' ds post
  end.
Proof.
  intros H. destruct pre as [|c pre'].
  - apply match_here_iff. now exists post.
  - destruct s as [|c' s'].
    + destruct H as [E _]. discriminate.
    + assert (c' = c) as -> by (destruct H as [E _]; now inversion E).
      exists s'. split; [reflexivity|].
      exact (proj1 (token_at_shift prev c s' pre' ds post) H).
Qed.

Lemma search_from_sound (prev : option ascii) (s g : string) :
  search_from prev s = Some g ->
  exists pre post,
    token_at prev s pre g post /\
    forall pre' ds' post', token_at prev s pre' ds' post' ->
      String.length pre <= String.length pre'.
Proof.
  revert prev. induction s as [|c s IH]; intros prev; rewrite search_from_unfold.
  - destruct (match_here prev EmptyString) as [g'|] eqn:Em; [|discriminate].
    intros [= ->]. apply match_here_iff in Em as [post Ht].
    exists EmptyString, post. split; [exact Ht|]. intros. simpl. lia.
  - destruct (match_here prev (String c s)) as [g'|] eqn:Em.
    + intros [= ->]. apply match_here_iff in Em as [post Ht].
      exists EmptyString, post. split; [exact Ht|]. intros. simpl. lia.
    + intros Hs. destruct (IH _ Hs) as [pre [post [Ht Hmin]]].
      exists (String c pre), post.
      split; [exact (proj2 (token_at_shift prev c s pre g post) Ht)|].
      intros pre' ds' post' Ht'. apply token_at_nonempty in Ht'.
      destruct pre' as [|c' pre'']; [congruence|].
      destruct Ht' as [s' [[= <- <-] Ht']].
      simpl. apply le_n_S. eapply Hmin. exact Ht'.
Qed.

Lemma search_from_complete (prev : option ascii) (s pre ds post : string) :
  token_at prev s pre ds post -> exists g, search_from prev s = Some g.
Proof.
  revert prev s. induction pre as [|c pre IH]; intros prev s Ht;
    apply token_at_nonempty in Ht; rewrite search_from_unfold.
  - rewrite Ht. eauto.
  - destruct Ht as [s' [-> Ht]].
    destruct (match_here prev (String c s')); [eauto|].
    eapply IH. exact Ht.
Qed.

(** **** The keyword table *)


Lemma matched_columns_In (table : list (string * string)) (text c : string) :
  In c (matched_columns table text) <->
  exists k, In (k, c) table /\ contains k text = true.
Proof.
  unfold matched_columns. rewrite in_map_iff. split.
  - intros [[k v] [E Hin]]. simpl in E. subst v.
    apply filter_In in Hin as [Hin Hc]. exists k. auto.
  - intros [k [Hin Hc]]. exists (k, c). split; [reflexivity|].
    apply filter_In. auto.
Qed.


End PromptFacts.

Section DataFacts.
Import PyStr Effects Data.

Lemma yields_app (t1 t2 : list effect) :
  yields (t1 ++ t2) = (yields t1 ++ yields t2)%list.
Proof.
  induction t1 as [|e t1 IH]; simpl; [reflexivity|].
  destruct e; simpl; now rewrite ?IH.
Qed.

Lemma yields_flat_map_relay (l : list message) :
  yields (flat_map relay l) = flat_map relayed l.
Proof.
  induction l as [|m l IH]; simpl; [reflexivity|].
  now rewrite yields_app, IH.
Qed.





Lemma orchestrate_yields (team : string -> stream) (local : executor) (task : string) :
  yields (fst (fst (orchestrate team local task))) =
  match start_raises local with
  | Some _ => []
  | None => flat_map relayed (items (team task))
  end.
Proof.
  unfold orchestrate. destruct (start_raises local) as [e|]; [reflexivity|].
  destruct (stop local) as [stop_failed local'] eqn:Es. cbn [fst].
  change (yields (flat_map relay (items (team task)) ++
                  match stop_failed with
                  | Some e =>
                      [SandboxStop;
                       Print ("Failed to stop executor cleanly: " ++ e)]
                  | None => [SandboxStop]
                  end)
          = flat_map relayed (items (team task))).
  rewrite yields_app, yields_flat_map_relay.
  destruct stop_failed; cbn [yields]; now rewrite app_nil_r.
Qed.

Lemma orchestrate_outcome (team : string -> stream) (local : executor) (task : string) :
  snd (fst (orchestrate team local task)) =
  match start_raises local with
  | Some e => Raised e
  | None =>
      match raised (team task) with Some e => Raised e | None => Returned end
  end.
Proof.
  unfold orchestrate. destruct (start_raises local) as [e|]; [reflexivity|].
  now destruct (stop local).
Qed.



End DataFacts.

Section FSFacts.
Import PyStr FS.

Lemma path_eqb_eq (p q : path) : path_eqb p q = true <-> p = q.
Proof.
  unfold path_eqb. destruct (list_eq_dec string_dec p q); split; congruence.
Qed.

Lemma path_eqb_refl (p : path) : path_eqb p p = true.
Proof. now apply path_eqb_eq. Qed.

Lemma path_eqb_neq (p q : path) : path_eqb p q = false <-> p <> q.
Proof.
  unfold path_eqb. destruct (list_eq_dec string_dec p q); split; congruence.
Qed.

Lemma lookup_write_same (fs : filesystem) (p : path) (n : node) :
  lookup (write fs p n) p = Some n.
Proof.
  induction fs as [|[q m] fs IH]; simpl.
  - now rewrite path_eqb_refl.
  - destruct (path_eqb q p) eqn:E; simpl; rewrite E; [reflexivity|exact IH].
Qed.

Lemma lookup_write_other (fs : filesystem) (p q : path) (n : node) :
  p <> q -> lookup (write fs p n) q = lookup fs q.
Proof.
  intros Hne. induction fs as [|[r m] fs IH]; simpl.
  - apply path_eqb_neq in Hne. now rewrite Hne.
  - destruct (path_eqb r p) eqn:E; simpl.
    + apply path_eqb_eq in E. subst r.
      apply path_eqb_neq in Hne. now rewrite Hne.
    + now rewrite IH.
Qed.

Lemma lookup_filter_keep (keep : path -> bool) (fs : filesystem) (q : path) :
  keep q = true ->
  lookup (filter (fun e => keep (fst e)) fs) q = lookup fs q.
Proof.
  intros Hq. induction fs as [|[r m] fs IH]; simpl; [reflexivity|].
  destruct (keep r) eqn:Er; simpl.
  - now rewrite IH.
  - destruct (path_eqb r q) eqn:E; [|exact IH].
    apply path_eqb_eq in E. congruence.
Qed.

Lemma lookup_filter_drop (keep : path -> bool) (fs : filesystem) (q : path) :
  keep q = false ->
  lookup (filter (fun e => keep (fst e)) fs) q = None.
Proof.
  intros Hq. induction fs as [|[r m] fs IH]; simpl; [reflexivity|].
  destruct (keep r) eqn:Er; simpl; [|exact IH].
  destruct (path_eqb r q) eqn:E; [|exact IH].
  apply path_eqb_eq in E. congruence.
Qed.

Lemma lookup_remove_same (fs : filesystem) (p : path) :
  lookup (remove fs p) p = None.
Proof.
  unfold remove. apply (lookup_filter_drop (fun r => negb (path_eqb r p))).
  now rewrite path_eqb_refl.
Qed.

Lemma lookup_remove_other (fs : filesystem) (p q : path) :
  p <> q -> lookup (remove fs p) q = lookup fs q.
Proof.
  intros Hne. unfold remove.
  apply (lookup_filter_keep (fun r => negb (path_eqb r p))).
  apply negb_true_iff, path_eqb_neq. congruence.
Qed.

Lemma lookup_remove_tree_outside (fs : filesystem) (dir q : path) :
  below dir q = false -> lookup (remove_tree fs dir) q = lookup fs q.
Proof.
  intros H. unfold remove_tree.
  apply (lookup_filter_keep (fun r => negb (below dir r))). now rewrite H.
Qed.

Lemma lookup_remove_tree_inside (fs : filesystem) (dir q : path) :
  below dir q = true -> lookup (remove_tree fs dir) q = None.
Proof.
  intros H. unfold remove_tree.
  apply (lookup_filter_drop (fun r => negb (below dir r))). now rewrite H.
Qed.

Lemma below_refl (dir : path) : below dir dir = true.
Proof.
  induction dir as [|d dir IH]; simpl; [reflexivity|].
  now rewrite String.eqb_refl.
Qed.

Lemma below_sibling (dir : path) (a b : string) :
  below (child dir a) (child dir b) = (a =? b).
Proof.
  unfold child. induction dir as [|d dir IH]; simpl.
  - now rewrite andb_true_r.
  - now rewrite String.eqb_refl.
Qed.

Lemma below_child (dir : path) (a : string) : below dir (child dir a) = true.
Proof.
  unfold child. induction dir as [|d dir IH]; simpl; [reflexivity|].
  now rewrite String.eqb_refl.
Qed.

Lemma below_trans (a b c : path) :
  below a b = true -> below b c = true -> below a c = true.
Proof.
  revert b c. induction a as [|x a IH]; intros [|y b] [|z c]; simpl;
    try reflexivity; try discriminate.
  rewrite !andb_true_iff. intros [E1 H1] [E2 H2].
  apply String.eqb_eq in E1, E2. subst. rewrite String.eqb_refl. eauto.
Qed.

Lemma name_child (dir : path) (a : string) : name (child dir a) = a.
Proof. unfold name, child. apply last_last. Qed.

Lemma child_inj (d1 d2 : path) (a b : string) :
  child d1 a = child d2 b -> d1 = d2 /\ a = b.
Proof. unfold child. apply app_inj_tail. Qed.

Lemma is_child_spec (dir p : path) :
  is_child dir p = true <-> p = child dir (name p) /\ p <> [].
Proof.
  unfold is_child, child, name, parent. destruct p as [|c p].
  - split; [discriminate|]. intros [_ H]. contradiction.
  - rewrite path_eqb_eq. split.
    + intros <-. split; [|discriminate]. apply app_removelast_last. discriminate.
    + intros [E _]. rewrite E at 1. now rewrite removelast_last.
Qed.

Lemma iterdir_In (fs : filesystem) (dir p : path) :
  In p (iterdir fs dir) <->
  (exists n, In (p, n) fs) /\ p = child dir (name p) /\ p <> [].
Proof.
  unfold iterdir. rewrite in_map_iff. split.
  - intros [[q n] [E Hin]]. simpl in E. subst q.
    apply filter_In in Hin as [Hin Hc]. simpl in Hc.
    apply is_child_spec in Hc. split; [now exists n|exact Hc].
  - intros [[n Hin] Hc]. exists (p, n). split; [reflexivity|].
    apply filter_In. split; [exact Hin|]. now apply is_child_spec.
Qed.

Lemma In_lookup (fs : filesystem) (p : path) (n : node) :
  In (p, n) fs -> exists m, lookup fs p = Some m.
Proof.
  induction fs as [|[q m] fs IH]; simpl; [contradiction|].
  intros [[= -> ->]|Hin].
  - rewrite path_eqb_refl. eauto.
  - destruct (path_eqb q p); eauto.
Qed.

Lemma lookup_In (fs : filesystem) (p : path) (n : node) :
  lookup fs p = Some n -> In (p, n) fs.
Proof.
  induction fs as [|[q m] fs IH]; simpl; [discriminate|].
  destruct (path_eqb q p) eqn:E.
  - apply path_eqb_eq in E. intros [= ->]. left. now subst.
  - auto.
Qed.

End FSFacts.

Section SortFacts.
Import PyStr.
Variable A : Type.
Variable leb : A -> A -> bool.
Hypothesis leb_total : forall x y, leb x y = true \/ leb y x = true.
Hypothesis leb_trans : forall x y z, leb x y = true -> leb y z = true -> leb x z = true.

Lemma insert_sorted_perm (x : A) (l : list A) :
  Permutation (insert_sorted leb x l) (x :: l).
Proof.
  induction l as [|y l IH]; simpl; [reflexivity|].
  destruct (leb x y); [reflexivity|].
  rewrite IH. apply perm_swap.
Qed.

Lemma sorted_perm (l : list A) : Permutation (sorted leb l) l.
Proof.
  induction l as [|x l IH]; simpl; [reflexivity|].
  rewrite insert_sorted_perm. now constructor.
Qed.

Lemma sorted_In (l : list A) (x : A) : In x (sorted leb l) <-> In x l.
Proof.
  split; apply Permutation_in; [|symmetry]; apply sorted_perm.
Qed.

Lemma insert_sorted_strongly (x : A) (l : list A) :
  StronglySorted (fun x y => leb x y = true) l -> StronglySorted (fun x y => leb x y = true) (insert_sorted leb x l).
Proof.
  induction 1 as [|y l Hs IH Hall]; simpl.
  - constructor; constructor.
  - destruct (leb x y) eqn:E.
    + constructor; [now constructor|]. constructor; [exact E|].
      eapply Forall_impl; [|exact Hall]. intros z Hz. exact (leb_trans _ _ _ E Hz).
    + constructor; [exact IH|].
      assert (Hyx : leb y x = true) by (destruct (leb_total x y); [congruence|assumption]).
      eapply Permutation_Forall; [symmetry; apply insert_sorted_perm|].
      now constructor.
Qed.

Lemma sorted_strongly (l : list A) : StronglySorted (fun x y => leb x y = true) (sorted leb l).
Proof.
  induction l as [|x l IH]; simpl; [constructor|].
  now apply insert_sorted_strongly.
Qed.

(** The first element of a sorted list that passes a test is the least
    element that passes it. *)
Lemma find_sorted_least (f : A -> bool) (l : list A) (x : A) :
  StronglySorted (fun x y => leb x y = true) l -> find f l = Some x ->
  In x l /\ f x = true /\ forall y, In y l -> f y = true -> leb x y = true.
Proof.
  induction 1 as [|z l Hs IH Hall]; simpl; [discriminate|].
  destruct (f z) eqn:Ez.
  - intros [= ->]. split; [now left|]. split; [exact Ez|].
    intros y [<-|Hy] _.
    + destruct (leb_total x x); assumption.
    + rewrite Forall_forall in Hall. now apply Hall.
  - intros Hf. destruct (IH Hf) as [Hin [Hfx Hmin]].
    split; [now right|]. split; [exact Hfx|].
    intros y [<-|Hy] Hfy; [congruence|]. now apply Hmin.
Qed.

(** The last element of a sorted list is a greatest one. *)
Lemma last_sorted_greatest (l : list A) (d : A) :
  StronglySorted (fun x y => leb x y = true) l -> l <> [] ->
  In (last l d) l /\ forall y, In y l -> leb y (last l d) = true.
Proof.
  induction 1 as [|z l Hs IH Hall]; [contradiction|]. intros _.
  destruct l as [|z' l'].
  - simpl. split; [now left|]. intros y [<-|[]].
    destruct (leb_total z z); assumption.
  - assert (Hne : z' :: l' <> []) by discriminate.
    destruct (IH Hne) as [Hin Hmax].
    change (last (z :: z' :: l') d) with (last (z' :: l') d).
    split; [now right|]. intros y [<-|Hy]; [|now apply Hmax].
    rewrite Forall_forall in Hall. now apply Hall.
Qed.

End SortFacts.

Section OrderFacts.
Import PyStr FS.

Lemma ascii_compare_refl (a : ascii) : Ascii.compare a a = Eq.
Proof. apply N.compare_refl. Qed.

Lemma ascii_compare_lt_trans (a b c : ascii) :
  Ascii.compare a b = Lt -> Ascii.compare b c = Lt -> Ascii.compare a c = Lt.
Proof.
  unfold Ascii.compare. rewrite !N.compare_lt_iff. apply N.lt_trans.
Qed.

Lemma string_compare_refl (s : string) : String.compare s s = Eq.
Proof.
  induction s as [|c s IH]; simpl; [reflexivity|].
  now rewrite ascii_compare_refl.
Qed.

Lemma string_compare_lt_trans (a b c : string) :
  String.compare a b = Lt -> String.compare b c = Lt -> String.compare a c = Lt.
Proof.
  revert b c. induction a as [|x a IH]; intros [|y b] [|z c]; simpl;
    try reflexivity; try discriminate.
  destruct (Ascii.compare x y) eqn:Exy; try discriminate;
    destruct (Ascii.compare y z) eqn:Eyz; try discriminate; intros H1 H2.
  - apply Ascii.compare_eq_iff in Exy, Eyz. subst.
    rewrite ascii_compare_refl. eauto.
  - apply Ascii.compare_eq_iff in Exy. subst. now rewrite Eyz.
  - apply Ascii.compare_eq_iff in Eyz. subst. now rewrite Exy.
  - now rewrite (ascii_compare_lt_trans _ _ _ Exy Eyz).
Qed.

Lemma path_leb_total (p q : path) : path_leb p q = true \/ path_leb q p = true.
Proof.
  revert q. induction p as [|a p IH]; intros [|b q]; simpl; auto.
  rewrite (String.compare_antisym b a).
  destruct (String.compare a b); simpl; auto.
Qed.

Lemma path_leb_trans (p q r : path) :
  path_leb p q = true -> path_leb q r = true -> path_leb p r = true.
Proof.
  revert q r. induction p as [|a p IH]; intros [|b q] [|c r]; simpl;
    try reflexivity; try discriminate.
  destruct (String.compare a b) eqn:Eab; try discriminate;
    destruct (String.compare b c) eqn:Ebc; try discriminate; intros H1 H2.
  - apply String.compare_eq_iff in Eab, Ebc. subst.
    rewrite string_compare_refl. eauto.
  - apply String.compare_eq_iff in Eab. subst. now rewrite Ebc.
  - apply String.compare_eq_iff in Ebc. subst. now rewrite Eab.
  - now rewrite (string_compare_lt_trans _ _ _ Eab Ebc).
Qed.

(** Entries of one directory are ordered by their names. *)
Lemma path_leb_siblings (dir : path) (a b : string) :
  path_leb (child dir a) (child dir b) = String.leb a b.
Proof.
  unfold child. induction dir as [|d dir IH]; simpl.
  - unfold String.leb. now destruct (String.compare a b).
  - now rewrite string_compare_refl.
Qed.

End OrderFacts.

Section DatasetFacts.
Import PyStr Effects Data FS Prompt App.

Lemma mem_In (x : string) (xs : list string) : mem x xs = true <-> In x xs.
Proof.
  unfold mem. rewrite existsb_exists. split.
  - intros [y [Hin E]]. apply String.eqb_eq in E. now subst.
  - intros Hin. exists x. split; [exact Hin|apply String.eqb_refl].
Qed.

Lemma no_token_no_dataset (prompt : string) :
  (forall pre ds post, ~ token_at None (lower prompt) pre ds post) <->
  snd (parse_columns prompt) = None.
Proof.
  unfold parse_columns, re_search_dataset. cbn [snd]. split.
  - intros Hno. destruct (search_from None (lower prompt)) as [g|] eqn:Es;
      [|reflexivity].
    destruct (search_from_sound _ _ _ Es) as [pre [post [Ht _]]].
    exfalso. exact (Hno _ _ _ Ht).
  - intros Hnone pre ds post Ht.
    destruct (search_from_complete _ _ _ _ _ Ht) as [g Es].
    rewrite Es in Hnone. discriminate.
Qed.

Lemma is_dataset_file_spec (fs : filesystem) (p : path) :
  is_dataset_file fs p = true <->
  is_file fs p = true /\ startswith (name p) "data" = true /\
  In (lower (suffix p)) DATA_EXTS.
Proof.
  unfold is_dataset_file. rewrite !andb_true_iff, mem_In. tauto.
Qed.

(** C9.  For a prompt without a [data<N>] token, dataset resolution returns
    the entry of the workspace that is a file whose name starts with "data"
    and whose extension is a recognized one, with the lexicographically
    least name among all such entries; it returns nothing when there is no
    such entry. *)
Theorem find_dataset_path_default (w : world) (fs : filesystem) (prompt : string) :
  (forall pre ds post, ~ token_at None (lower prompt) pre ds post) ->
  let dataset := snd (parse_columns prompt) in
  let candidate p :=
    In p (iterdir fs (TEMP_DIR w)) /\
    is_file fs p = true /\ startswith (name p) "data" = true /\
    In (lower (suffix p)) DATA_EXTS in
  match find_dataset_path w fs dataset with
  | Some p =>
      candidate p /\
      forall q, candidate q -> String.leb (name p) (name q) = true
  | None => forall q, ~ candidate q
  end.
Proof.
  intros Hno dataset candidate. subst dataset.
  rewrite (proj1 (no_token_no_dataset prompt) Hno).
  unfold find_dataset_path.
  assert (Hs := sorted_strongly _ path_leb path_leb_total path_leb_trans
                  (iterdir fs (TEMP_DIR w))).
  destruct (find (is_dataset_file fs) (sorted path_leb (iterdir fs (TEMP_DIR w))))
    as [p|] eqn:Ef.
  - destruct (find_sorted_least _ path_leb path_leb_total _ _ _ Hs Ef)
      as [Hin [Hp Hmin]].
    apply sorted_In in Hin. apply is_dataset_file_spec in Hp.
    split; [split; assumption|].
    intros q [Hq Hfq]. apply is_dataset_file_spec in Hfq.
    specialize (Hmin q (proj2 (sorted_In _ _ _ _) Hq) Hfq).
    apply iterdir_In in Hin as [_ [Ep _]]. apply iterdir_In in Hq as [_ [Eq _]].
    rewrite Ep, Eq in Hmin. now rewrite path_leb_siblings in Hmin.
  - intros q [Hq Hfq]. apply is_dataset_file_spec in Hfq.
    pose proof (find_none _ _ Ef q (proj2 (sorted_In _ _ _ _) Hq)). congruence.
Qed.

(** On the sample workspace a prompt that names no dataset resolves to
    [data1.json], the least of the two dataset names. *)
Lemma find_dataset_path_default_witness :
  find_dataset_path Samples.calm_world Samples.workspace
    (snd (parse_columns "report for temp one"))
  = Some (child Samples.temp "data1.json") /\
  String.leb "data1.json" "data2.csv" = true.
Proof.
  assert (Hno : forall pre ds post,
             ~ token_at None (lower "report for temp one") pre ds post).
  { apply no_token_no_dataset. reflexivity. }
  pose proof (find_dataset_path_default Samples.calm_world Samples.workspace
                "report for temp one" Hno) as H.
  cbv zeta in H.
  destruct (find_dataset_path Samples.calm_world Samples.workspace
              (snd (parse_columns "report for temp one"))) as [p|] eqn:E.
  - vm_compute in E. injection E as <-. split; [reflexivity|].
    destruct H as [_ Hmin].
    apply (Hmin (child Samples.temp "data2.csv")).
    vm_compute. repeat split; auto.
  - vm_compute in E. discriminate.
Defined.

Lemma parse_columns_dataset_named (prompt d : string) :
  snd (parse_columns prompt) = Some d -> exists g, d = "data" ++ g.
Proof.
  unfold parse_columns. cbn [snd].
  destruct (re_search_dataset (lower prompt)) as [g|]; [|discriminate].
  intros [= <-]. now exists g.
Qed.

Lemma find_by_name_none (w : world) (fs : filesystem) (d : string) :
  d <> EmptyString ->
  Permutation (set_order w) DATA_EXTS ->
  (forall ext, In ext DATA_EXTS ->
     exists_ fs (child (TEMP_DIR w) (d ++ ext)) = false) ->
  find_dataset_path w fs (Some d) = None.
Proof.
  intros Hd Hperm Hnone. unfold find_dataset_path.
  destruct d as [|c d]; [contradiction|].
  destruct (find (exists_ fs)
              (map (fun ext => child (TEMP_DIR w) (String c d ++ ext)) (set_order w)))
    as [p|] eqn:Ef; [|reflexivity].
  apply find_some in Ef as [Hin Hex].
  apply in_map_iff in Hin as [ext [<- Hext]].
  rewrite Hnone in Hex; [discriminate|].
  eapply Permutation_in; eassumption.
Qed.

Lemma clean_step_frame (w : world) (s : session_state) (fs0 : filesystem)
    (l : list path) :
  forall acc : filesystem * list effect,
    (forall p n, lookup (fst acc) p = Some n -> lookup fs0 p = Some n) ->
    forall p n, lookup (fst (fold_left (clean_step w s) l acc)) p = Some n ->
                lookup fs0 p = Some n.
Proof.
  induction l as [|q l IH]; intros acc Hacc; [exact Hacc|].
  cbn [fold_left]. apply IH. destruct acc as [fs1 tr]. cbn [fst] in *.
  unfold clean_step.
  destruct (is_file fs1 q && (lower (suffix q) =? ".png")); [|exact Hacc].
  destruct (is_persistent s q); [exact Hacc|].
  unfold unlink. destruct (unlink_raises w q); [exact Hacc|].
  destruct (lookup fs1 q) as [[[data|] t]|]; try exact Hacc.
  cbn [fst]. intros p n Hp. apply Hacc.
  destruct (list_eq_dec string_dec q p) as [->|Hne].
  - now rewrite lookup_remove_same in Hp.
  - now rewrite lookup_remove_other in Hp.
Qed.

Lemma clean_stale_plots_frame (w : world) (st : state) :
  session (fst (clean_stale_plots w st)) = session st /\
  forall p n, lookup (fs (fst (clean_stale_plots w st))) p = Some n ->
              lookup (fs st) p = Some n.
Proof.
  unfold clean_stale_plots.
  pose proof (clean_step_frame w (session st) (fs st)
                (iterdir (fs st) (TEMP_DIR w)) (fs st, []) (fun p n H => H)) as H.
  destruct (fold_left _ _ _) as [fs' tr]. split; [reflexivity|exact H].
Qed.

(** C10.  When the prompt names a dataset [data<N>] and the workspace has
    no entry [data<N><ext>] for any recognized extension, dataset resolution
    returns nothing, whatever other datasets are present; the report branch
    then only emits the warning: no document is generated and the files and
    the session (the persistent slot included) are unchanged. *)
Theorem named_dataset_missing (w : world) (st : state) (prompt d : string)
    (columns : list string) :
  Permutation (set_order w) DATA_EXTS ->
  snd (parse_columns prompt) = Some d ->
  (forall ext, In ext DATA_EXTS ->
     exists_ (fs st) (child (TEMP_DIR w) (d ++ ext)) = false) ->
  find_dataset_path w (fs st) (Some d) = None /\
  report_branch w st columns (Some d)
    = (st, [StWarning "⚠️ Uploaded dataset not found."]) /\
  (contains "report" (lower prompt) = true -> fst (parse_columns prompt) <> [] ->
   let cleaned := clean_stale_plots w st in
   handle_prompt w prompt st
     = (fst cleaned, (snd cleaned ++ [StWarning "⚠️ Uploaded dataset not found."])%list,
        Returned) /\
   session (fst cleaned) = session st).
Proof.
  intros Hperm Hd Hnone.
  destruct (parse_columns_dataset_named _ _ Hd) as [g ->].
  assert (Hfind : forall fs',
             (forall p n, lookup fs' p = Some n -> lookup (fs st) p = Some n) ->
             find_dataset_path w fs' (Some ("data" ++ g)) = None).
  { intros fs' Hsub. apply find_by_name_none; [discriminate|exact Hperm|].
    intros ext Hext. specialize (Hnone ext Hext). unfold exists_ in *.
    destruct (lookup fs' _) as [n|] eqn:E; [|reflexivity].
    apply Hsub in E. now rewrite E in Hnone. }
  split; [apply Hfind; auto|].
  split; [unfold report_branch; rewrite Hfind; auto|].
  intros Hrep Hcols cleaned.
  destruct (clean_stale_plots_frame w st) as [Hsess Hsub]. fold cleaned in Hsess, Hsub.
  split; [|exact Hsess].
  unfold handle_prompt. fold cleaned. destruct cleaned as [st0 tr_clean].
  cbn [fst snd] in *.
  destruct (parse_columns prompt) as [cols ds]. cbn [fst snd] in *. subst ds.
  rewrite Hrep. destruct cols as [|c cols]; [contradiction|]. cbn [andb].
  unfold report_branch. rewrite (Hfind (fs st0) Hsub). reflexivity.
Qed.

(** On the sample workspace, which holds [data1.json] and [data2.csv], a
    report asked for [data3] resolves to nothing, although a prompt without
    a dataset name would resolve to [data1.json]. *)
Lemma named_dataset_missing_witness :
  find_dataset_path Samples.calm_world Samples.workspace (Some "data3") = None /\
  find_dataset_path Samples.calm_world Samples.workspace None
    = Some (child Samples.temp "data1.json") /\
  report_branch Samples.calm_world
    {| fs := Samples.workspace; session := Samples.session_with_plot |}
    ["temperature_one"] (Some "data3")
    = ({| fs := Samples.workspace; session := Samples.session_with_plot |},
       [StWarning "⚠️ Uploaded dataset not found."]).
Proof.
  assert (Hperm : Permutation (set_order Samples.calm_world) DATA_EXTS).
  { apply NoDup_Permutation.
    - repeat constructor; simpl; intuition discriminate.
    - repeat constructor; simpl; intuition discriminate.
    - intros x. simpl. tauto. }
  assert (Hd : snd (parse_columns "report for temp one from data3") = Some "data3")
    by reflexivity.
  assert (Hnone : forall ext, In ext DATA_EXTS ->
     exists_ (fs {| fs := Samples.workspace; session := Samples.session_with_plot |})
       (child (TEMP_DIR Samples.calm_world) ("data3" ++ ext)) = false).
  { intros ext Hext. simpl in Hext.
    destruct Hext as [<-|[<-|[<-|[<-|[<-|[]]]]]]; reflexivity. }
  destruct (named_dataset_missing Samples.calm_world
              {| fs := Samples.workspace; session := Samples.session_with_plot |}
              "report for temp one from data3" "data3" ["temperature_one"]
              Hperm Hd Hnone) as [H1 [H2 _]].
  split; [exact H1|]. split; [reflexivity|exact H2].
Defined.

End DatasetFacts.

Section QueryFacts.
Import PyStr Effects Data FS Prompt App.

Lemma prints_nil : prints [].
Proof. constructor. Qed.

Lemma prints_one (line : string) : prints [Print line].
Proof. repeat constructor. Qed.

Lemma prints_app (t1 t2 : list effect) : prints t1 -> prints t2 -> prints (t1 ++ t2).
Proof. intros H1 H2. apply Forall_app. now split. Qed.



Lemma prints_yields (tr : list effect) : prints tr -> yields tr = [].
Proof.
  induction 1 as [|e tr He _ IH]; [reflexivity|].
  destruct e; try discriminate. exact IH.
Qed.



Lemma seed_run_dir_prints (w : world) (fs0 : filesystem) (run_dir : path) :
  prints (snd (seed_run_dir w fs0 run_dir)).
Proof.
  unfold seed_run_dir.
  assert (H : forall l acc, prints (snd acc) ->
                prints (snd (fold_left (seed_step w run_dir) l acc))).
  { induction l as [|q l IH]; intros acc Hacc; [exact Hacc|].
    cbn [fold_left]. apply IH. destruct acc as [fs1 tr]. cbn [snd] in *.
    unfold seed_step. destruct (is_file fs1 q && _); [|exact Hacc].
    destruct (copy2 w fs1 q _); cbn [snd]; [|exact Hacc].
    apply prints_app; [exact Hacc|apply prints_one]. }
  apply H. apply prints_nil.
Qed.

Lemma load_team_state_prints (w : world) (s : session_state) :
  prints (snd (load_team_state w s)).
Proof.
  unfold load_team_state. destruct (team_state s) as [b|]; [|apply prints_nil].
  destruct (load_state_raises w b); [apply prints_one|apply prints_nil].
Qed.

Lemma save_team_state_prints (w : world) (loaded : option blob) (task : string)
    (st : state) :
  prints (snd (save_team_state w loaded task st)).
Proof.
  unfold save_team_state.
  destruct (save_state w loaded task); [apply prints_one|apply prints_nil].
Qed.

Lemma promote_prints (w : world) (run_id : string) (run_dir : path) (st : state) :
  prints (snd (promote w run_id run_dir st)).
Proof.
  unfold promote. destruct (pngs_by_mtime (fs st) run_dir) as [|p0 rest];
    [apply prints_nil|].
  destruct (copy2 w (fs st) _ _) as [e|fs1]; [apply prints_one|].
  destruct (last_plot (session st)) as [prev|]; [|apply prints_nil].
  destruct (exists_ fs1 prev && _); [|apply prints_nil].
  destruct (unlink w fs1 prev); [apply prints_one|apply prints_nil].
Qed.

Lemma destroy_run_prints (w : world) (run_dir : path) (st : state) :
  prints (snd (destroy_run w run_dir st)).
Proof.
  unfold destroy_run. destruct (exists_ (fs st) run_dir && _); [|apply prints_nil].
  destruct (rmtree w (fs st) run_dir); [apply prints_one|apply prints_nil].
Qed.

Lemma cleanup_unfold (w : world) (run_id : string) (run_dir : path)
    (loaded : option blob) (task : string) (local : executor) (st : state) :
  cleanup w run_id run_dir loaded task local st =
  let saved := save_team_state w loaded task st in
  let promoted := promote w run_id run_dir (fst saved) in
  let destroyed := destroy_run w run_dir (fst promoted) in
  (fst destroyed,
   (snd saved ++ snd promoted ++ [SandboxStop] ++ snd destroyed)%list,
   snd (stop local)).
Proof.
  unfold cleanup. destruct (save_team_state w loaded task st) as [st1 tr1].
  cbn [fst snd]. destruct (promote w run_id run_dir st1) as [st2 tr2].
  cbn [fst snd]. destruct (stop local) as [x local'].
  now destruct (destroy_run w run_dir st2) as [st3 tr3].
Qed.

Lemma query_unfold (w : world) (prompt : string) (st : state) :
  query w prompt st =
  let run_id := uuid4_hex w in
  let run_dir := child (TEMP_DIR w) run_id in
  match mkdir w (fs st) run_dir with
  | inl e => (st, [], Raised e, None)
  | inr fs0 =>
      let seeded := seed_run_dir w fs0 run_dir in
      let ld := load_team_state w (session st) in
      let task := make_task prompt (file_paths (fst seeded) run_dir) in
      let call := orchestrate (team_run_stream w (fst ld)) (local_executor w) task in
      let fs2 :=
        match start_raises (local_executor w) with
        | None => loop_files w (fst seeded)
        | Some _ => fst seeded
        end in
      let cl := cleanup w run_id run_dir (fst ld) task (snd call)
                  {| fs := fs2; session := session st |} in
      let tr := (snd seeded ++ snd ld ++ fst (fst call) ++ snd (fst cl))%list in
      match snd (fst call) with
      | Raised e => (fst (fst cl), tr, Raised e, Some (snd cl))
      | Returned =>
          ({| fs := fs (fst (fst cl));
              session :=
                set_last_developer_msg (session (fst (fst cl)))
                  (find (fun msg => startswith msg "code_developer")
                     (rev (fold_left keep_non_meta
                             (yields (fst (fst call))) []))) |},
           tr, Returned, Some (snd cl))
      end
  end.
Proof.
  unfold query. destruct (mkdir w (fs st) _) as [e|fs0]; [reflexivity|].
  destruct (seed_run_dir w fs0 _) as [fs1 tr_seed].
  destruct (load_team_state w (session st)) as [loaded tr_load].
  cbn [fst snd].
  destruct (orchestrate _ _ _) as [[tr_loop ended] local1].
  cbn [fst snd].
  destruct (cleanup _ _ _ _ _ _ _) as [[st1 tr_cleanup] local2].
  reflexivity.
Qed.

Lemma orchestrate_trace (team : string -> stream) (local : executor) (task : string) :
  fst (fst (orchestrate team local task)) =
  match start_raises local with
  | Some e => [SandboxStart; Print ("Executor failed to start: " ++ e)]
  | None =>
      (SandboxStart :: (RunStream task :: flat_map relay (items (team task)))
       ++ SandboxStop ::
          match stop_raises local (stop_calls local) with
          | Some e => [Print ("Failed to stop executor cleanly: " ++ e)]
          | None => []
          end)%list
  end.
Proof.
  unfold orchestrate, stop. destruct (start_raises local) as [e|]; [reflexivity|].
  cbn [fst]. now destruct (stop_raises local (stop_calls local)).
Qed.

Lemma relay_no_sandbox_call (l : list message) :
  Forall (fun e => is_sandbox_call e = false) (flat_map relay l).
Proof.
  induction l as [|m l IH]; simpl; [constructor|].
  apply Forall_app. split; [|exact IH].
  destruct m; repeat constructor.
Qed.

Lemma cleanup_state_indep (w : world) (e : executor) (run_id : string)
    (run_dir : path) (loaded : option blob) (task : string)
    (local local' : executor) (st : state) :
  fst (fst (cleanup (with_executor w e) run_id run_dir loaded task local' st))
  = fst (fst (cleanup w run_id run_dir loaded task local st)).
Proof. rewrite !cleanup_unfold. reflexivity. Qed.

Lemma cleanup_yields (w : world) (run_id : string) (run_dir : path)
    (loaded : option blob) (task : string) (local : executor) (st : state) :
  yields (snd (fst (cleanup w run_id run_dir loaded task local st))) = [].
Proof.
  rewrite cleanup_unfold. cbn [fst snd].
  rewrite !yields_app.
  rewrite (prints_yields _ (save_team_state_prints _ _ _ _)),
          (prints_yields _ (promote_prints _ _ _ _)),
          (prints_yields _ (destroy_run_prints _ _ _)).
  reflexivity.
Qed.

(** The trace and the end of a call of [query] whose run directory could
    be made. *)
Lemma query_trace (w : world) (prompt : string) (st : state) (fs0 : filesystem) :
  let run_dir := child (TEMP_DIR w) (uuid4_hex w) in
  mkdir w (fs st) run_dir = inr fs0 ->
  let seeded := seed_run_dir w fs0 run_dir in
  let ld := load_team_state w (session st) in
  let task := make_task prompt (file_paths (fst seeded) run_dir) in
  let call := orchestrate (team_run_stream w (fst ld)) (local_executor w) task in
  exists after,
    snd (fst (fst (query w prompt st)))
      = ((snd seeded ++ snd ld) ++ fst (fst call) ++ after)%list /\
    (exists a1 a2,
        after = (a1 ++ SandboxStop :: a2)%list /\ prints a1 /\ prints a2) /\
    snd (fst (query w prompt st)) = snd (fst call).
Proof.
  intros run_dir Em seeded ld task call.
  rewrite query_unfold. cbv zeta. fold run_dir. rewrite Em.
  fold seeded ld task call.
  set (cl := cleanup w (uuid4_hex w) run_dir (fst ld) task (snd call) _).
  exists (snd (fst cl)). split; [|split].
  - destruct (snd (fst call)); cbn [fst snd]; now rewrite <- app_assoc.
  - subst cl. rewrite cleanup_unfold. cbn [fst snd].
    eexists (_ ++ _)%list, _. split; [now rewrite <- app_assoc|].
    split; [apply prints_app;
            [apply save_team_state_prints|apply promote_prints]
           |apply destroy_run_prints].
  - now destruct (snd (fst call)).
Qed.

(** C3.  In every call of [query] that reaches the loop, the sandbox is
    started before anything of the loop happens; when the start raises, the
    exception ends [orchestrate] and [query] (nothing is run or yielded);
    otherwise the stop of the sandbox follows the last turn whether the
    stream ended normally or by an exception; in both cases the [finally]
    block of [query] attempts a stop after the loop.  What the calls of
    [stop] answer changes neither how the call ends nor the resulting state
    nor the items yielded: a failure is at most printed. *)
Theorem sandbox_lifecycle (w : world) (prompt : string) (st : state) :
  let run_dir := child (TEMP_DIR w) (uuid4_hex w) in
  let result := query w prompt st in
  let tr := snd (fst (fst result)) in
  let ended := snd (fst result) in
  match mkdir w (fs st) run_dir with
  | inl e => tr = [] /\ ended = Raised e
  | inr _ =>
      exists before loop after loaded task,
        tr = (before ++ loop ++ after)%list /\
        loop = fst (fst (orchestrate (team_run_stream w loaded)
                           (local_executor w) task)) /\
        prints before /\
        (exists a1 a2,
            after = (a1 ++ SandboxStop :: a2)%list /\ prints a1 /\ prints a2) /\
        match start_raises (local_executor w) with
        | Some e =>
            loop = [SandboxStart; Print ("Executor failed to start: " ++ e)] /\
            ended = Raised e
        | None =>
            (exists turns logged,
                loop = (SandboxStart :: turns ++ SandboxStop :: logged)%list /\
                Forall (fun e => is_sandbox_call e = false) turns /\
                prints logged) /\
            ended = match raised (team_run_stream w loaded task) with
                    | Some e => Raised e
                    | None => Returned
                    end
        end
  end /\
  forall answers : nat -> option exn,
    let w' := with_executor w (with_stop_raises (local_executor w) answers) in
    let result' := query w' prompt st in
    fst (fst (fst result')) = fst (fst (fst result)) /\
    snd (fst result') = ended /\
    yields (snd (fst (fst result'))) = yields tr.
Proof.
  intros run_dir result tr ended. subst tr ended result. split.
  - destruct (mkdir w (fs st) run_dir) as [e|fs0] eqn:Em.
    { rewrite query_unfold. cbv zeta. fold run_dir. rewrite Em.
      split; reflexivity. }
    destruct (query_trace w prompt st fs0 Em) as [after [Htr [Hafter Hended]]].
    fold run_dir in Htr, Hended.
    set (seeded := seed_run_dir w fs0 run_dir) in *.
    set (ld := load_team_state w (session st)) in *.
    set (task := make_task prompt (file_paths (fst seeded) run_dir)) in *.
    exists (snd seeded ++ snd ld)%list,
           (fst (fst (orchestrate (team_run_stream w (fst ld))
                        (local_executor w) task))),
           after, (fst ld), task.
    split; [exact Htr|]. split; [reflexivity|].
    split; [apply prints_app; [apply seed_run_dir_prints|apply load_team_state_prints]|].
    split; [exact Hafter|].
    rewrite Hended, orchestrate_outcome, orchestrate_trace.
    destruct (start_raises (local_executor w)) as [e|].
    + split; reflexivity.
    + split; [|reflexivity].
      eexists (RunStream task :: flat_map relay _), _.
      split; [reflexivity|]. split.
      * constructor; [reflexivity|apply relay_no_sandbox_call].
      * destruct (stop_raises _ _); [apply prints_one|apply prints_nil].
  - intros answers w' result'. subst result'. rewrite !query_unfold. cbv zeta.
    change (TEMP_DIR w') with (TEMP_DIR w).
    change (uuid4_hex w') with (uuid4_hex w). fold run_dir.
    change (mkdir w' (fs st) run_dir) with (mkdir w (fs st) run_dir).
    destruct (mkdir w (fs st) run_dir) as [e|fs0]; [repeat split; reflexivity|].
    change (seed_run_dir w' fs0 run_dir) with (seed_run_dir w fs0 run_dir).
    change (load_team_state w' (session st)) with (load_team_state w (session st)).
    set (seeded := seed_run_dir w fs0 run_dir).
    set (ld := load_team_state w (session st)).
    set (task := make_task prompt (file_paths (fst seeded) run_dir)).
    change (team_run_stream w') with (team_run_stream w).
    change (local_executor w') with (with_stop_raises (local_executor w) answers).
    change (start_raises (with_stop_raises (local_executor w) answers))
      with (start_raises (local_executor w)).
    change (loop_files w') with (loop_files w).
    set (call := orchestrate (team_run_stream w (fst ld)) (local_executor w) task).
    set (call' := orchestrate (team_run_stream w (fst ld))
                    (with_stop_raises (local_executor w) answers) task).
    assert (Hy : yields (fst (fst call')) = yields (fst (fst call)))
      by (unfold call, call'; now rewrite !orchestrate_yields).
    assert (Ho : snd (fst call') = snd (fst call))
      by (unfold call, call'; now rewrite !orchestrate_outcome).
    rewrite Ho, Hy.
    set (st2 := {| fs := _; session := session st |}).
    pose proof (cleanup_state_indep w (with_stop_raises (local_executor w) answers)
                  (uuid4_hex w) run_dir (fst ld) task (snd call) (snd call') st2)
      as Hc.
    fold w' in Hc.
    destruct (snd (fst call)); cbn [fst snd]; rewrite ?Hc;
      (split; [reflexivity|]); (split; [reflexivity|]);
      rewrite !yields_app, Hy, !cleanup_yields; reflexivity.
Qed.

End QueryFacts.

Section PromotionFacts.
Import PyStr Effects Data FS Prompt App.

Lemma mtime_leb_total (fs0 : filesystem) (p q : path) :
  (mtime fs0 p <=? mtime fs0 q)%Z = true \/ (mtime fs0 q <=? mtime fs0 p)%Z = true.
Proof. rewrite !Z.leb_le. lia. Qed.

Lemma mtime_leb_trans (fs0 : filesystem) (p q r : path) :
  (mtime fs0 p <=? mtime fs0 q)%Z = true ->
  (mtime fs0 q <=? mtime fs0 r)%Z = true ->
  (mtime fs0 p <=? mtime fs0 r)%Z = true.
Proof. rewrite !Z.leb_le. lia. Qed.

(** The plot chosen for promotion is a PNG entry of the run directory with
    the greatest time stamp. *)
Lemma latest_png_greatest (fs0 : filesystem) (run_dir : path) :
  pngs_by_mtime fs0 run_dir <> [] ->
  let latest_png := last (pngs_by_mtime fs0 run_dir) [] in
  In latest_png (glob_png fs0 run_dir) /\
  forall q, In q (glob_png fs0 run_dir) -> (mtime fs0 q <= mtime fs0 latest_png)%Z.
Proof.
  intros Hne latest_png. unfold pngs_by_mtime in *.
  set (leb := fun p q : path => (mtime fs0 p <=? mtime fs0 q)%Z) in *.
  pose proof (sorted_strongly _ leb (mtime_leb_total fs0) (mtime_leb_trans fs0)
                (glob_png fs0 run_dir)) as Hs.
  destruct (last_sorted_greatest _ leb (mtime_leb_total fs0) _ [] Hs Hne)
    as [Hin Hmax].
  split.
  - exact (proj1 (sorted_In _ leb _ _) Hin).
  - intros q Hq. apply Z.leb_le. apply Hmax.
    exact (proj2 (sorted_In _ leb _ _) Hq).
Qed.

Lemma pngs_by_mtime_nil (fs0 : filesystem) (run_dir : path) :
  pngs_by_mtime fs0 run_dir = [] <-> glob_png fs0 run_dir = [].
Proof.
  unfold pngs_by_mtime. split; intros H.
  - apply Permutation_nil. rewrite <- H. apply sorted_perm.
  - now rewrite H.
Qed.

Lemma copy2_result (w : world) (fs0 fs1 : filesystem) (src dst : path) :
  copy2 w fs0 src dst = inr fs1 ->
  is_file fs0 src = true /\
  lookup fs1 dst = lookup fs0 src /\
  forall p, p <> dst -> lookup fs1 p = lookup fs0 p.
Proof.
  unfold copy2, is_file. destruct (copy2_raises w src dst); [discriminate|].
  destruct (lookup fs0 src) as [[[data|] t]|]; try discriminate.
  intros [= <-]. split; [reflexivity|]. split.
  - apply lookup_write_same.
  - intros p Hp. apply lookup_write_other. congruence.
Qed.

Lemma unlink_result (w : world) (fs0 fs1 : filesystem) (p : path) :
  unlink w fs0 p = inr fs1 ->
  lookup fs1 p = None /\ forall q, q <> p -> lookup fs1 q = lookup fs0 q.
Proof.
  unfold unlink. destruct (unlink_raises w p); [discriminate|].
  destruct (lookup fs0 p) as [[[data|] t]|]; try discriminate.
  intros [= <-]. split.
  - apply lookup_remove_same.
  - intros q Hq. apply lookup_remove_other. congruence.
Qed.

(** What the promotion step does, by cases. *)
Lemma promote_cases (w : world) (run_id : string) (run_dir : path) (st : state) :
  let st' := fst (promote w run_id run_dir st) in
  match pngs_by_mtime (fs st) run_dir with
  | [] => glob_png (fs st) run_dir = [] /\ st' = st
  | (_ :: _) as pngs =>
      let latest_png := last pngs [] in
      let dest := child (TEMP_DIR w) (run_id ++ "_" ++ name latest_png) in
      In latest_png (glob_png (fs st) run_dir) /\
      (forall q, In q (glob_png (fs st) run_dir) ->
                 (mtime (fs st) q <= mtime (fs st) latest_png)%Z) /\
      match copy2 w (fs st) latest_png dest with
      | inl _ => st' = st
      | inr _ =>
          last_plot (session st') = Some dest /\
          last_plot_filename (session st')
            = Some (run_id ++ "_" ++ name latest_png) /\
          is_file (fs st') dest = true /\
          lookup (fs st') dest = lookup (fs st) latest_png /\
          forall p, p <> dest ->
            lookup (fs st') p = lookup (fs st) p \/
            (last_plot (session st) = Some p /\ lookup (fs st') p = None)
      end
  end.
Proof.
  intros st'.
  subst st'. unfold promote.
  pose proof (latest_png_greatest (fs st) run_dir) as Hlatest.
  pose proof (proj1 (pngs_by_mtime_nil (fs st) run_dir)) as Hnil.
  destruct (pngs_by_mtime (fs st) run_dir) as [|p0 rest] eqn:Epngs.
  { split; [now apply Hnil|reflexivity]. }
  cbv zeta. cbv zeta in Hlatest.
  destruct (Hlatest ltac:(discriminate)) as [Hin Hmax]. clear Hlatest Hnil.
  set (latest_png := last (p0 :: rest) []) in *.
  set (dest := child (TEMP_DIR w) (run_id ++ "_" ++ name latest_png)).
  split; [exact Hin|]. split; [exact Hmax|].
  destruct (copy2 w (fs st) latest_png dest) as [e|fs1] eqn:Ecopy; [reflexivity|].
  destruct (copy2_result _ _ _ _ _ Ecopy) as [Hfile [Hdest Hother]].
  assert (Hfile1 : is_file fs1 dest = true)
    by (unfold is_file in *; now rewrite Hdest).
  assert (Hname : Some (name dest) = Some (run_id ++ "_" ++ name latest_png))
    by (unfold dest; now rewrite name_child).
  destruct (last_plot (session st)) as [prev|] eqn:Eprev; cbn [fst fs session].
  - destruct (exists_ fs1 prev && negb (path_eqb prev dest)) eqn:Etest.
    + apply andb_true_iff in Etest as [_ Hne].
      apply negb_true_iff, path_eqb_neq in Hne.
      destruct (unlink w fs1 prev) as [e|fs2] eqn:Eu; cbn [fst fs session].
      * repeat split; auto; intros p Hp; left; now apply Hother.
      * destruct (unlink_result _ _ _ _ Eu) as [Hgone Hkeep].
        split; [reflexivity|]. split; [exact Hname|]. split; [|split].
        -- unfold is_file in *. rewrite Hkeep; [exact Hfile1|congruence].
        -- rewrite Hkeep; [exact Hdest|congruence].
        -- intros p Hp. destruct (list_eq_dec string_dec p prev) as [->|Hpp].
           ++ right. auto.
           ++ left. rewrite Hkeep; [now apply Hother|exact Hpp].
    + cbn [fst fs session]. repeat split; auto;
        intros p Hp; left; now apply Hother.
  - repeat split; auto; intros p Hp; left; now apply Hother.
Qed.

(** C2.  The promotion step of the [finally] block.  When the run directory
    holds PNG entries, the one taken has the latest modification time among
    them and is copied into [TEMP_DIR] under the run identifier, an
    underscore and its own name.  If the copy fails the state is exactly as
    before: the slot keeps its value and no file is touched.  If it succeeds
    the slot points to the new file, which holds the copy; of all other
    files only the previous occupant of the slot can have disappeared, and
    it is never removed when it is the new file itself.  A slot that named
    an existing file before names an existing file afterwards. *)
Theorem promote_latest_plot (w : world) (run_id : string) (run_dir : path)
    (st : state) :
  let st' := fst (promote w run_id run_dir st) in
  match pngs_by_mtime (fs st) run_dir with
  | [] => glob_png (fs st) run_dir = [] /\ st' = st
  | (_ :: _) as pngs =>
      let latest_png := last pngs [] in
      let dest := child (TEMP_DIR w) (run_id ++ "_" ++ name latest_png) in
      In latest_png (glob_png (fs st) run_dir) /\
      (forall q, In q (glob_png (fs st) run_dir) ->
                 (mtime (fs st) q <= mtime (fs st) latest_png)%Z) /\
      match copy2 w (fs st) latest_png dest with
      | inl _ => st' = st
      | inr _ =>
          last_plot (session st') = Some dest /\
          last_plot_filename (session st')
            = Some (run_id ++ "_" ++ name latest_png) /\
          is_file (fs st') dest = true /\
          lookup (fs st') dest = lookup (fs st) latest_png /\
          forall p, p <> dest ->
            lookup (fs st') p = lookup (fs st) p \/
            (last_plot (session st) = Some p /\ lookup (fs st') p = None)
      end
  end /\
  ((forall p, last_plot (session st) = Some p -> exists_ (fs st) p = true) ->
   forall p, last_plot (session st') = Some p -> exists_ (fs st') p = true).
Proof.
  intros st'. pose proof (promote_cases w run_id run_dir st) as Hmain.
  cbv zeta in Hmain. fold st' in Hmain.
  split; [exact Hmain|].
  intros Hvalid p.
  destruct (pngs_by_mtime (fs st) run_dir) as [|p0 rest].
  - destruct Hmain as [_ ->]. apply Hvalid.
  - destruct Hmain as [_ [_ Hmain]].
    destruct (copy2 w (fs st) _ _).
    + rewrite Hmain. apply Hvalid.
    + destruct Hmain as [Hslot [_ [Hfile _]]]. rewrite Hslot. intros [= <-].
      unfold exists_, is_file in *.
      now destruct (lookup (fs st') _).
Qed.

(** On the sample workspace after a run that wrote three plots, the slot is
    in order before the promotion and names an existing file after it. *)
Lemma promote_latest_plot_witness :
  let st := {| fs := Samples.after_plot_run;
               session := Samples.session_with_plot |} in
  let st' := fst (promote Samples.calm_world "run1"
                    (child Samples.temp "run1") st) in
  (forall p, last_plot (session st) = Some p -> exists_ (fs st) p = true) /\
  exists_ (fs st') (child Samples.temp "run1_second.png") = true.
Proof.
  intros st st'.
  assert (Hvalid : forall p, last_plot (session st) = Some p ->
                             exists_ (fs st) p = true).
  { intros p Hp. injection Hp as <-. reflexivity. }
  split; [exact Hvalid|].
  exact (proj2 (promote_latest_plot Samples.calm_world "run1"
                  (child Samples.temp "run1") st)
           Hvalid (child Samples.temp "run1_second.png") eq_refl).
Defined.

(** On the sample workspace after a run that wrote three plots, the one
    with the latest time stamp is promoted and the plot of the earlier run
    is removed. *)
Example promote_sample :
  let st := {| fs := Samples.after_plot_run;
               session := Samples.session_with_plot |} in
  let st' := fst (promote Samples.calm_world "run1"
                    (child Samples.temp "run1") st) in
  last_plot (session st') = Some (child Samples.temp "run1_second.png") /\
  lookup (fs st') (child Samples.temp "run1_second.png")
    = Some (Samples.file "p2" 105) /\
  lookup (fs st') (child Samples.temp "run0_plot.png") = None.
Proof. repeat split; reflexivity. Qed.

Lemma save_team_state_frame (w : world) (loaded : option blob) (task : string)
    (st : state) :
  fs (fst (save_team_state w loaded task st)) = fs st /\
  last_plot (session (fst (save_team_state w loaded task st)))
    = last_plot (session st) /\
  last_plot_filename (session (fst (save_team_state w loaded task st)))
    = last_plot_filename (session st).
Proof.
  unfold save_team_state. destruct (save_state w loaded task); auto.
Qed.

Lemma promote_no_png (w : world) (run_id : string) (run_dir : path) (st : state) :
  glob_png (fs st) run_dir = [] -> promote w run_id run_dir st = (st, []).
Proof.
  intros H. unfold promote.
  now rewrite (proj2 (pngs_by_mtime_nil (fs st) run_dir) H).
Qed.

(** Removing the run directory touches nothing outside it, hence no regular
    file that lies directly in [TEMP_DIR]; when it succeeds, the directory
    and all below it are gone. *)
Lemma destroy_run_frame (w : world) (run_id : string) (st : state) :
  let run_dir := child (TEMP_DIR w) run_id in
  let st' := fst (destroy_run w run_dir st) in
  session st' = session st /\
  (forall p, below run_dir p = false -> lookup (fs st') p = lookup (fs st) p) /\
  (forall x, is_file (fs st) (child (TEMP_DIR w) x) = true ->
     lookup (fs st') (child (TEMP_DIR w) x)
       = lookup (fs st) (child (TEMP_DIR w) x)) /\
  (is_dir (fs st) run_dir = true -> rmtree_raises w run_dir = None ->
   forall p, below run_dir p = true -> lookup (fs st') p = None).
Proof.
  intros run_dir st'. subst st'. unfold destroy_run, rmtree.
  destruct (exists_ (fs st) run_dir && is_dir (fs st) run_dir) eqn:Etest.
  - apply andb_true_iff in Etest as [_ Hdir].
    destruct (rmtree_raises w run_dir) as [e|] eqn:Er; cbn [fst fs session].
    + repeat split; auto. discriminate.
    + split; [reflexivity|]. split; [|split].
      * intros p Hp. now apply lookup_remove_tree_outside.
      * intros x Hx. apply lookup_remove_tree_outside.
        unfold run_dir. rewrite below_sibling.
        apply String.eqb_neq. intros <-.
        unfold is_file, is_dir in *. fold run_dir in Hx.
        destruct (lookup (fs st) run_dir) as [[[data|] t]|]; discriminate.
      * intros _ _ p Hp. now apply lookup_remove_tree_inside.
  - cbn [fst]. repeat split; auto.
    intros Hdir. apply andb_false_iff in Etest as [He|Hd]; [|congruence].
    unfold exists_, is_dir in *.
    destruct (lookup (fs st) run_dir); discriminate.
Qed.

(** C4.  When the run directory holds no PNG entry at the end of the loop,
    the promotion step does nothing, and after the whole [finally] block
    the slot has the same path and display name and every file outside the
    run directory, the file of the slot among them, is as before.  In any
    state, removing the run directory changes no file outside it, in
    particular no regular file lying directly in [TEMP_DIR], where the
    promoted plots live, and on success leaves nothing of the directory. *)
Theorem no_plot_slot_untouched (w : world) (run_id : string)
    (loaded : option blob) (task : string) (local : executor) (st : state) :
  let run_dir := child (TEMP_DIR w) run_id in
  glob_png (fs st) run_dir = [] ->
  let st' := fst (fst (cleanup w run_id run_dir loaded task local st)) in
  promote w run_id run_dir st = (st, []) /\
  last_plot (session st') = last_plot (session st) /\
  last_plot_filename (session st') = last_plot_filename (session st) /\
  (forall p, below run_dir p = false -> lookup (fs st') p = lookup (fs st) p) /\
  (forall x, last_plot (session st) = Some (child (TEMP_DIR w) x) ->
     is_file (fs st) (child (TEMP_DIR w) x) = true ->
     lookup (fs st') (child (TEMP_DIR w) x)
       = lookup (fs st) (child (TEMP_DIR w) x)) /\
  (is_dir (fs st) run_dir = true -> rmtree_raises w run_dir = None ->
   forall p, below run_dir p = true -> lookup (fs st') p = None) /\
  (forall st0 : state,
     let st1 := fst (destroy_run w run_dir st0) in
     session st1 = session st0 /\
     (forall p, below run_dir p = false -> lookup (fs st1) p = lookup (fs st0) p) /\
     (forall x, is_file (fs st0) (child (TEMP_DIR w) x) = true ->
        lookup (fs st1) (child (TEMP_DIR w) x)
          = lookup (fs st0) (child (TEMP_DIR w) x)) /\
     (is_dir (fs st0) run_dir = true -> rmtree_raises w run_dir = None ->
      forall p, below run_dir p = true -> lookup (fs st1) p = None)).
Proof.
  intros run_dir Hno st'.
  split; [now apply promote_no_png|].
  subst st'. rewrite cleanup_unfold. cbv zeta. cbn [fst].
  destruct (save_team_state_frame w loaded task st) as [Hfs [Hslot Hname]].
  set (saved := fst (save_team_state w loaded task st)) in *.
  rewrite (promote_no_png w run_id run_dir saved) by now rewrite Hfs.
  cbn [fst].
  destruct (destroy_run_frame w run_id saved) as [Hsess [Hout [Hfile Hgone]]].
  fold run_dir in Hsess, Hout, Hfile, Hgone.
  rewrite Hsess, Hslot, Hname. rewrite Hfs in *.
  split; [reflexivity|]. split; [reflexivity|]. split; [exact Hout|].
  split; [intros x _; apply Hfile|]. split; [exact Hgone|].
  intros st0. apply (destroy_run_frame w run_id st0).
Qed.

(** On the sample workspace after a run that wrote no plot: the slot still
    names [run0_plot.png], that file is as before, and the run directory
    with its copies is gone. *)
Lemma no_plot_slot_untouched_witness :
  let st := {| fs := Samples.after_plain_run;
               session := Samples.session_with_plot |} in
  let st' := fst (fst (cleanup Samples.calm_world "run1"
                         (child Samples.temp "run1") None "task"
                         Samples.calm_executor st)) in
  glob_png (fs st) (child Samples.temp "run1") = [] /\
  last_plot (session st') = Some (child Samples.temp "run0_plot.png") /\
  lookup (fs st') (child Samples.temp "run0_plot.png")
    = Some (Samples.file "old" 5) /\
  lookup (fs st') (child (child Samples.temp "run1") "data2.csv") = None.
Proof.
  intros st st'.
  assert (Hno : glob_png (fs st) (child (TEMP_DIR Samples.calm_world) "run1") = [])
    by reflexivity.
  destruct (no_plot_slot_untouched Samples.calm_world "run1" None "task"
              Samples.calm_executor st Hno)
    as [_ [Hslot [_ [Hout [_ [Hgone _]]]]]].
  split; [exact Hno|]. split; [exact Hslot|]. split.
  - exact (Hout (child Samples.temp "run0_plot.png") eq_refl).
  - exact (Hgone eq_refl eq_refl
             (child (child Samples.temp "run1") "data2.csv") eq_refl).
Defined.

End PromotionFacts.

Section RoutingFacts.
Import PyStr Effects Data FS Prompt App.









End RoutingFacts.

Section Invariants.
Import PyStr Effects Data FS Prompt App.

(** X1.  The [finally] block keeps the persistent slot in order: if the slot,
    when set, names a regular file directly in [TEMP_DIR] before the block,
    it does so after it, whether or not a plot was promoted and whether or
    not the copy, the removal of the old plot or the removal of the run
    directory failed. *)
Theorem cleanup_keeps_slot (w : world) (run_id : string) (loaded : option blob)
    (task : string) (local : executor) (st : state) :
  slot_ok w st ->
  slot_ok w (fst (fst (cleanup w run_id (child (TEMP_DIR w) run_id)
                         loaded task local st))).
Proof.
  intros Hok. rewrite cleanup_unfold. cbv zeta. cbn [fst].
  destruct (save_team_state_frame w loaded task st) as [Hfs [Hslot _]].
  set (saved := fst (save_team_state w loaded task st)) in *.
  assert (Hsaved : slot_ok w saved).
  { intros p Hp. rewrite Hslot in Hp. unfold is_file. rewrite Hfs.
    exact (Hok p Hp). }
  clearbody saved. clear Hfs Hslot Hok st.
  set (run_dir := child (TEMP_DIR w) run_id).
  pose proof (promote_cases w run_id run_dir saved) as Hp. cbv zeta in Hp.
  set (promoted := fst (promote w run_id run_dir saved)) in *.
  assert (Hpromoted : slot_ok w promoted).
  { destruct (pngs_by_mtime (fs saved) run_dir) as [|p0 rest].
    - destruct Hp as [_ ->]. exact Hsaved.
    - destruct Hp as [_ [_ Hp]]. destruct (copy2 w (fs saved) _ _).
      + rewrite Hp. exact Hsaved.
      + destruct Hp as [Hs [_ [Hfile _]]]. intros p. rewrite Hs. intros [= <-].
        split; [eauto|exact Hfile]. }
  clearbody promoted. clear Hp Hsaved saved.
  destruct (destroy_run_frame w run_id promoted) as [Hsess [_ [Hkeep _]]].
  fold run_dir in Hsess, Hkeep.
  intros p Hp. rewrite Hsess in Hp. destruct (Hpromoted p Hp) as [[x ->] Hfile].
  split; [eauto|]. unfold is_file in *. now rewrite Hkeep.
Qed.

(** On the sample workspace after a run that wrote three plots. *)
Lemma cleanup_keeps_slot_witness :
  let st := {| fs := Samples.after_plot_run;
               session := Samples.session_with_plot |} in
  slot_ok Samples.calm_world st /\
  slot_ok Samples.calm_world
    (fst (fst (cleanup Samples.calm_world "run1"
                 (child (TEMP_DIR Samples.calm_world) "run1") None "task"
                 Samples.calm_executor st))).
Proof.
  intros st.
  assert (Hok : slot_ok Samples.calm_world st).
  { intros p Hp. injection Hp as <-. split; [|reflexivity].
    now exists "run0_plot.png". }
  split; [exact Hok|].
  exact (cleanup_keeps_slot Samples.calm_world "run1" None "task"
           Samples.calm_executor st Hok).
Defined.

Lemma clean_step_keeps (w : world) (s : session_state) (p : path)
    (l : list path) :
  is_persistent s p = true \/ lower (suffix p) <> ".png" ->
  forall acc : filesystem * list effect,
    lookup (fst (fold_left (clean_step w s) l acc)) p = lookup (fst acc) p.
Proof.
  intros Hp. induction l as [|q l IH]; intros acc; [reflexivity|].
  cbn [fold_left]. rewrite IH. destruct acc as [fs1 tr]. unfold clean_step.
  destruct (is_file fs1 q && (lower (suffix q) =? ".png")) eqn:Et; [|reflexivity].
  destruct (is_persistent s q) eqn:Eq; [reflexivity|].
  unfold unlink. destruct (unlink_raises w q); [reflexivity|].
  destruct (lookup fs1 q) as [[[data|] t]|]; try reflexivity.
  cbn [fst]. apply lookup_remove_other. intros ->.
  apply andb_true_iff in Et as [_ Epng]. apply String.eqb_eq in Epng.
  destruct Hp as [Hp|Hp]; congruence.
Qed.

(** X2.  The clean-up at the start of a prompt never touches the file of the
    persistent slot, nor any entry whose extension is not [.png]. *)
Theorem clean_stale_plots_keeps (w : world) (st : state) (p : path) :
  is_persistent (session st) p = true \/ lower (suffix p) <> ".png" ->
  lookup (fs (fst (clean_stale_plots w st))) p = lookup (fs st) p.
Proof.
  intros Hp. unfold clean_stale_plots.
  pose proof (clean_step_keeps w (session st) p
                (iterdir (fs st) (TEMP_DIR w)) Hp (fs st, [])) as H.
  now destruct (fold_left _ _ _).
Qed.

(** On the sample workspace with a stale plot beside the persistent one:
    the stale plot is deleted, the persistent one stays. *)
Lemma clean_stale_plots_keeps_witness :
  let st := {| fs := (Samples.workspace ++
                      [(child Samples.temp "stale.png", Samples.file "x" 6)])%list;
               session := Samples.session_with_plot |} in
  let st' := fst (clean_stale_plots Samples.calm_world st) in
  lookup (fs st') (child Samples.temp "run0_plot.png")
    = Some (Samples.file "old" 5) /\
  lookup (fs st') (child Samples.temp "stale.png") = None.
Proof.
  intros st st'. split; [|reflexivity].
  exact (clean_stale_plots_keeps Samples.calm_world st
           (child Samples.temp "run0_plot.png") (or_introl eq_refl)).
Defined.

(** X3.  The window of turn messages [query] keeps while it reads the stream
    never holds more than three messages. *)
Theorem non_meta_window (msgs : list string) :
  List.length (fold_left keep_non_meta msgs []) <= 3.
Proof.
  assert (H : forall acc, List.length acc <= 3 ->
                List.length (fold_left keep_non_meta msgs acc) <= 3).
  { induction msgs as [|m msgs IH]; intros acc Hacc; [exact Hacc|].
    cbn [fold_left]. apply IH. unfold keep_non_meta.
    destruct (startswith m "code_executor" || startswith m "code_developer");
      [|exact Hacc].
    destruct (Nat.ltb_spec 3 (List.length (acc ++ [m]))) as [Hlt|Hle]; [|exact Hle].
    rewrite length_app in *. simpl in *.
    destruct acc as [|a acc]; simpl in *; [lia|].
    rewrite length_app. simpl. lia. }
  apply H. simpl. lia.
Qed.

Lemma seed_step_frame (w : world) (run_dir p : path) (l : list path) :
  below run_dir p = false ->
  forall acc : filesystem * list effect,
    lookup (fst (fold_left (seed_step w run_dir) l acc)) p = lookup (fst acc) p.
Proof.
  intros Hp. induction l as [|q l IH]; intros acc; [reflexivity|].
  cbn [fold_left]. rewrite IH. destruct acc as [fs1 tr]. unfold seed_step.
  destruct (is_file fs1 q && startswith (name q) "data"); [|reflexivity].
  destruct (copy2 w fs1 q (child run_dir (name q))) as [e|fs2] eqn:Ec;
    [reflexivity|].
  cbn [fst]. destruct (copy2_result _ _ _ _ _ Ec) as [_ [_ Hother]].
  apply Hother. intros ->. now rewrite below_child in Hp.
Qed.

(** X4.  Seeding the run directory writes below the run directory only: every
    other path is as before. *)
Theorem seed_run_dir_frame (w : world) (fs0 : filesystem) (run_dir p : path) :
  below run_dir p = false ->
  lookup (fst (seed_run_dir w fs0 run_dir)) p = lookup fs0 p.
Proof.
  intros Hp. unfold seed_run_dir.
  exact (seed_step_frame w run_dir p _ Hp (fs0, [])).
Qed.

(** On the sample workspace: the uploaded dataset is as before, and its
    copy is in the run directory. *)
Lemma seed_run_dir_frame_witness :
  let seeded := fst (seed_run_dir Samples.calm_world Samples.workspace
                       (child Samples.temp "run1")) in
  lookup seeded (child Samples.temp "data2.csv") = Some (Samples.file "b" 3) /\
  lookup seeded (child (child Samples.temp "run1") "data2.csv")
    = Some (Samples.file "b" 3).
Proof.
  intros seeded. split; [|reflexivity].
  exact (seed_run_dir_frame Samples.calm_world Samples.workspace
           (child Samples.temp "run1") (child Samples.temp "data2.csv") eq_refl).
Defined.

End Invariants.

Section GeneratedFacts.
Import PyStr Prompt Generated.









(** The name ends at the first white space; a second [.png] is taken into
    the name; the pattern is case sensitive, and needs a character before
    [.png]. *)
Example get_filename_from_msg_samples :
  get_filename_from_msg "code_executor: ok GENERATED:plot.png done"
    = Some "plot.png" /\
  get_filename_from_msg "GENERATED:a.png.png" = Some "a.png.png" /\
  get_filename_from_msg "GENERATED:a.pngx" = Some "a.png" /\
  get_filename_from_msg "GENERATED:.png GENERATED:b.png" = Some "b.png" /\
  get_filename_from_msg "generated:plot.png" = None /\
  get_filename_from_msg "GENERATED: plot.png" = None /\
  get_filename_from_msg "GENERATED:plot.PNG" = None.
Proof. repeat split. Qed.

End GeneratedFacts.

Section UploadFacts.
Import PyStr Effects FS Prompt App Upload.

Lemma clean_temp_step_subset (w : world) (s : session_state) (l : list path) :
  forall (acc : filesystem * list effect) p n,
    lookup (fst (fold_left (clean_temp_step w s) l acc)) p = Some n ->
    lookup (fst acc) p = Some n.
Proof.
  induction l as [|q l IH]; intros acc p n H; [exact H|].
  cbn [fold_left] in H. apply IH in H. destruct acc as [fs1 tr].
  unfold clean_temp_step in H. cbn [fst].
  destruct (is_file fs1 q); [|exact H].
  destruct (is_persistent s q); [exact H|].
  destruct (unlink w fs1 q) as [e|fs2] eqn:Eu; [exact H|].
  cbn [fst] in H. destruct (unlink_result _ _ _ _ Eu) as [Hgone Hother].
  destruct (list_eq_dec string_dec p q) as [->|Hne]; [congruence|].
  now rewrite <- (Hother p Hne).
Qed.

Lemma clean_temp_step_keeps (w : world) (s : session_state) (p : path)
    (l : list path) :
  forall acc : filesystem * list effect,
    is_persistent s p = true \/ is_file (fst acc) p = false \/ ~ In p l ->
    lookup (fst (fold_left (clean_temp_step w s) l acc)) p = lookup (fst acc) p.
Proof.
  induction l as [|q l IH]; intros acc Hp; [reflexivity|].
  cbn [fold_left].
  assert (Hstep : lookup (fst (clean_temp_step w s acc q)) p = lookup (fst acc) p).
  { destruct acc as [fs1 tr]. unfold clean_temp_step. cbn [fst] in *.
    destruct (is_file fs1 q) eqn:Ef; [|reflexivity].
    destruct (is_persistent s q) eqn:Eq; [reflexivity|].
    destruct (unlink w fs1 q) as [e|fs2] eqn:Eu; [reflexivity|].
    cbn [fst]. destruct (unlink_result _ _ _ _ Eu) as [_ Hother].
    apply Hother. intros ->. destruct Hp as [Hp|[Hp|Hp]]; [congruence|congruence|].
    apply Hp. now left. }
  rewrite IH; [exact Hstep|].
  destruct Hp as [Hp|[Hp|Hp]]; [now left| |].
  - right. left. unfold is_file in *. now rewrite Hstep.
  - right. right. intros Hin. apply Hp. now right.
Qed.

Lemma clean_temp_step_removes (w : world) (s : session_state) (p : path)
    (l : list path) :
  is_persistent s p = false -> unlink_raises w p = None ->
  forall acc : filesystem * list effect,
    In p l \/ is_file (fst acc) p = false ->
    is_file (fst (fold_left (clean_temp_step w s) l acc)) p = false.
Proof.
  intros Hs Hu. induction l as [|q l IH]; intros acc Hp.
  - destruct Hp as [[]|Hp]. exact Hp.
  - cbn [fold_left]. apply IH.
    destruct (list_eq_dec string_dec q p) as [->|Hne].
    + right. destruct acc as [fs1 tr]. unfold clean_temp_step. cbn [fst].
      destruct (is_file fs1 p) eqn:Ef; [|exact Ef]. rewrite Hs.
      unfold unlink. rewrite Hu. unfold is_file in Ef.
      destruct (lookup fs1 p) as [[[data|] t]|]; try discriminate.
      cbn [fst]. unfold is_file. now rewrite lookup_remove_same.
    + destruct Hp as [[Hp|Hp]|Hp]; [congruence|now left|]. right.
      unfold is_file.
      change (clean_temp_step w s acc q)
        with (fold_left (clean_temp_step w s) [q] acc).
      rewrite (clean_temp_step_keeps w s p [q] acc); [exact Hp|].
      right. right. intros [E|[]]. congruence.
Qed.

Lemma clean_temp_step_prints (w : world) (s : session_state) (l : list path) :
  forall acc, prints (snd acc) ->
    prints (snd (fold_left (clean_temp_step w s) l acc)).
Proof.
  induction l as [|q l IH]; intros acc Hacc; [exact Hacc|].
  cbn [fold_left]. apply IH. destruct acc as [fs1 tr]. unfold clean_temp_step.
  destruct (is_file fs1 q); [|exact Hacc].
  destruct (is_persistent s q); [exact Hacc|].
  destruct (unlink w fs1 q); [|exact Hacc].
  cbn [snd] in *. apply prints_app; [exact Hacc|apply prints_one].
Qed.

Lemma clean_temp_unfold (w : world) (st : state) :
  clean_temp_keep_persistent_plot w st =
  let swept := fold_left (clean_temp_step w (session st))
                         (iterdir (fs st) (TEMP_DIR w)) (fs st, []) in
  ({| fs := fst swept; session := session st |}, snd swept).
Proof.
  unfold clean_temp_keep_persistent_plot. now destruct (fold_left _ _ _).
Qed.

Lemma not_child_not_listed (fs0 : filesystem) (dir p : path) :
  is_child dir p = false -> ~ In p (iterdir fs0 dir).
Proof.
  intros Hc Hin. apply iterdir_In in Hin as [_ Hin].
  apply is_child_spec in Hin. congruence.
Qed.

(** X6.  [clean_temp_keep_persistent_plot] only deletes: it leaves the
    session, the file of the persistent slot, every directory and everything
    that is not directly in [TEMP_DIR] as they are, it creates and changes
    no entry, and every other regular file of [TEMP_DIR] whose deletion does
    not fail is gone afterwards; a failed deletion only writes a console
    line. *)
Theorem clean_temp_only_deletes (w : world) (st : state) :
  let st' := fst (clean_temp_keep_persistent_plot w st) in
  session st' = session st /\
  (forall p n, lookup (fs st') p = Some n -> lookup (fs st) p = Some n) /\
  (forall p,
     is_persistent (session st) p = true \/ is_file (fs st) p = false
     \/ is_child (TEMP_DIR w) p = false ->
     lookup (fs st') p = lookup (fs st) p) /\
  (forall p,
     In p (iterdir (fs st) (TEMP_DIR w)) ->
     is_persistent (session st) p = false -> unlink_raises w p = None ->
     is_file (fs st') p = false) /\
  prints (snd (clean_temp_keep_persistent_plot w st)).
Proof.
  unfold clean_temp_keep_persistent_plot.
  pose proof (clean_temp_step_subset w (session st)
                (iterdir (fs st) (TEMP_DIR w)) (fs st, [])) as Hsub.
  pose proof (fun p => clean_temp_step_keeps w (session st) p
                (iterdir (fs st) (TEMP_DIR w)) (fs st, [])) as Hkeep.
  pose proof (fun p Hs Hu => clean_temp_step_removes w (session st) p
                (iterdir (fs st) (TEMP_DIR w)) Hs Hu (fs st, [])) as Hrem.
  pose proof (clean_temp_step_prints w (session st)
                (iterdir (fs st) (TEMP_DIR w)) (fs st, []) prints_nil) as Hpr.
  destruct (fold_left _ _ _) as [fs' tr]. cbn [fst snd fs session] in *.
  split; [reflexivity|]. split; [exact Hsub|]. split; [|split; [|exact Hpr]].
  - intros p [Hp|[Hp|Hp]]; apply Hkeep; [now left|right; now left|].
    right. right. now apply not_child_not_listed.
  - intros p Hin Hs Hu. apply Hrem; [exact Hs|exact Hu|now left].
Qed.

(** **** The names of the stored files *)

Lemma string_of_uint_digits (d : Decimal.uint) :
  all_digits (NilEmpty.string_of_uint d) = true.
Proof. induction d; simpl; auto. Qed.

Lemma decimal_digits (n : nat) : all_digits (decimal n) = true.
Proof. apply string_of_uint_digits. Qed.

Lemma decimal_inj (i j : nat) : decimal i = decimal j -> i = j.
Proof.
  unfold decimal. intros H. apply Unsigned.to_uint_inj.
  apply (f_equal NilEmpty.uint_of_string) in H.
  rewrite !NilEmpty.usu in H. now injection H.
Qed.

Lemma from_last_dot_shape (s t : string) :
  from_last_dot s = Some t -> exists t', t = String "." t'.
Proof.
  revert t. induction s as [|c s IH]; intros t; simpl; [discriminate|].
  destruct (from_last_dot s) as [u|].
  - intros [= <-]. now apply IH.
  - destruct (Ascii.eqb_spec c "."); [|discriminate].
    intros [= <-]. subst c. now exists s.
Qed.

(** The extension of an uploaded file is empty or starts with a dot. *)
Lemma file_extension_shape (file : uploaded_file) :
  file_extension file = EmptyString \/
  exists t, file_extension file = String "." t.
Proof.
  unfold file_extension, suffix.
  destruct (name [file_name file]) as [|c rest]; [now left|].
  destruct (from_last_dot rest) as [t|] eqn:Et; [|now left].
  destruct (String.length t =? 1)%nat; [now left|].
  apply from_last_dot_shape in Et as [t' ->]. right. now exists (lower t').
Qed.

Lemma digits_app_inj (d1 d2 e1 e2 : string) :
  all_digits d1 = true -> all_digits d2 = true ->
  (e1 = EmptyString \/ exists t, e1 = String "." t) ->
  (e2 = EmptyString \/ exists t, e2 = String "." t) ->
  d1 ++ e1 = d2 ++ e2 -> d1 = d2 /\ e1 = e2.
Proof.
  revert d2. induction d1 as [|a d1 IH]; intros d2 H1 H2 S1 S2 E.
  - destruct d2 as [|b d2]; [now split|]. exfalso. simpl in *.
    apply andb_true_iff in H2 as [Hb _].
    destruct S1 as [->|[t ->]]; [discriminate|].
    injection E as <- _. discriminate.
  - simpl in H1. apply andb_true_iff in H1 as [Ha H1].
    destruct d2 as [|b d2].
    + exfalso. simpl in E. destruct S2 as [->|[t ->]]; [discriminate|].
      injection E as -> _. discriminate.
    + simpl in H2. apply andb_true_iff in H2 as [_ H2].
      simpl in E. injection E as <- E.
      destruct (IH d2 H1 H2 S1 S2 E) as [-> ->]. now split.
Qed.

Lemma stored_name_inj (i j : nat) (f g : uploaded_file) :
  stored_name i f = stored_name j g -> i = j /\ file_extension f = file_extension g.
Proof.
  unfold stored_name. intros E. simpl in E. injection E as E.
  destruct (digits_app_inj _ _ _ _ (decimal_digits i) (decimal_digits j)
              (file_extension_shape f) (file_extension_shape g) E) as [Ed Ee].
  split; [now apply decimal_inj|exact Ee].
Qed.

(** **** The loop that stores the files *)

Lemma open_wb_result (w : world) (open_raises : path -> option exn)
    (fs0 fs1 : filesystem) (p : path) (data : string) :
  open_wb w open_raises fs0 p data = inr fs1 ->
  lookup fs1 p = Some {| node_kind := RegularFile data; st_mtime := clock w |} /\
  forall q, q <> p -> lookup fs1 q = lookup fs0 q.
Proof.
  unfold open_wb. destruct (open_raises p); [discriminate|].
  destruct (is_dir fs0 p); [discriminate|]. intros [= <-]. split.
  - apply lookup_write_same.
  - intros q Hq. apply lookup_write_other. congruence.
Qed.

(** The files of the list are at their places afterwards, and every path
    that is not one of these places is as before. *)
Lemma store_uploads_result (w : world) (open_raises : path -> option exn)
    (files : list uploaded_file) :
  forall idx fs0,
    let result := store_uploads w open_raises idx files fs0 in
    (forall p,
       (forall k file, nth_error files k = Some file ->
          p <> child (TEMP_DIR w) (stored_name (idx + k) file)) ->
       lookup (fst (fst result)) p = lookup fs0 p) /\
    (snd result = Returned ->
     forall k file, nth_error files k = Some file ->
       lookup (fst (fst result)) (child (TEMP_DIR w) (stored_name (idx + k) file))
       = Some {| node_kind := RegularFile (getbuffer file);
                 st_mtime := clock w |}).
Proof.
  induction files as [|file0 rest IH]; intros idx fs0; cbn zeta.
  - split; [reflexivity|]. intros _ [|k] file; discriminate.
  - cbn [store_uploads].
    destruct (open_wb w open_raises fs0 _ (getbuffer file0)) as [e|fs1] eqn:Eo.
    + split; [reflexivity|discriminate].
    + destruct (open_wb_result _ _ _ _ _ _ Eo) as [Hnew Hother].
      specialize (IH (S idx) fs1). cbn zeta in IH.
      destruct (store_uploads w open_raises (S idx) rest fs1) as [[fs2 tr] ended].
      cbn [fst snd] in *. destruct IH as [IHframe IHstored]. split.
      * intros p Hp. rewrite IHframe.
        -- apply Hother. specialize (Hp 0 file0 eq_refl).
           now rewrite Nat.add_0_r in Hp.
        -- intros k file Hk. specialize (Hp (S k) file Hk).
           now rewrite Nat.add_succ_r in Hp.
      * intros -> [|k] file Hk.
        -- injection Hk as <-. rewrite Nat.add_0_r. rewrite IHframe; [exact Hnew|].
           intros k file Hk E. apply child_inj in E as [_ E].
           apply stored_name_inj in E as [E _]. lia.
        -- rewrite Nat.add_succ_r. now apply (IHstored eq_refl k file).
Qed.

Lemma upload_unfold (w : world) (open_raises : path -> option exn)
    (file0 : uploaded_file) (rest : list uploaded_file) (st : state) :
  upload w open_raises (file0 :: rest) st =
  let cleaned := clean_temp_keep_persistent_plot w st in
  let stored := store_uploads w open_raises 1 (file0 :: rest) (fs (fst cleaned)) in
  ({| fs := fst (fst stored); session := session (fst cleaned) |},
   (snd cleaned ++ snd (fst stored))%list, snd stored).
Proof.
  unfold upload. destruct (clean_temp_keep_persistent_plot w st) as [st0 tr0].
  cbn [fst snd]. now destruct (store_uploads _ _ _ _ _) as [[fs2 tr] ended].
Qed.

(** X7.  An upload that returns has stored the k-th file of the list (from
    1) at [TEMP_DIR/data<k><extension in lower case>] with the bytes of the
    file, whatever the other files of the list are; the session is as
    before; and away from these places the upload acts as the clean-up
    before it: the persistent plot, the directories and what is not directly
    in [TEMP_DIR] are as before, and the other regular files of [TEMP_DIR]
    whose deletion does not fail are gone. *)
Theorem upload_stores_files (w : world) (open_raises : path -> option exn)
    (uploaded_files : list uploaded_file) (st : state) :
  snd (upload w open_raises uploaded_files st) = Returned ->
  let st' := fst (fst (upload w open_raises uploaded_files st)) in
  session st' = session st /\
  (forall k file, nth_error uploaded_files k = Some file ->
     lookup (fs st') (child (TEMP_DIR w) (stored_name (S k) file))
     = Some {| node_kind := RegularFile (getbuffer file);
               st_mtime := clock w |}) /\
  (forall p,
     (forall k file, nth_error uploaded_files k = Some file ->
        p <> child (TEMP_DIR w) (stored_name (S k) file)) ->
     (is_persistent (session st) p = true \/ is_file (fs st) p = false
      \/ is_child (TEMP_DIR w) p = false ->
      lookup (fs st') p = lookup (fs st) p) /\
     (uploaded_files <> [] ->
      In p (iterdir (fs st) (TEMP_DIR w)) ->
      is_persistent (session st) p = false -> unlink_raises w p = None ->
      is_file (fs st') p = false)).
Proof.
  destruct uploaded_files as [|file0 rest].
  - intros _. cbn. split; [reflexivity|]. split.
    + intros [|k] file; discriminate.
    + intros p _. split; [reflexivity|]. intros H. now contradiction H.
  - rewrite upload_unfold, clean_temp_unfold. cbv zeta. cbn [fst snd fs session].
    set (swept := fold_left _ _ _).
    pose proof (store_uploads_result w open_raises (file0 :: rest) 1 (fst swept))
      as [Hframe Hstored].
    intros Hret. split; [reflexivity|]. split.
    + intros k file Hk. exact (Hstored Hret k file Hk).
    + intros p Hp. rewrite (Hframe p Hp). split.
      * intros H. apply clean_temp_step_keeps.
        destruct H as [H|[H|H]]; [now left|right; now left|].
        right. right. now apply not_child_not_listed.
      * intros _ Hin Hs Hu. unfold is_file. rewrite (Hframe p Hp).
        apply (clean_temp_step_removes w (session st) p _ Hs Hu). now left.
Qed.

(** On the sample workspace: the two files are stored under their new
    names, the extension of the first in lower case. *)
Lemma upload_stores_files_witness :
  let result := upload Samples.calm_world (fun _ => None)
                  MoreSamples.two_uploads MoreSamples.workspace_state in
  snd result = Returned /\
  lookup (fs (fst (fst result))) (child Samples.temp "data1.csv")
    = Some (Samples.file "r" 100) /\
  lookup (fs (fst (fst result))) (child Samples.temp "data2.json")
    = Some (Samples.file "l" 100).
Proof.
  intros result.
  pose proof (upload_stores_files Samples.calm_world (fun _ => None)
                MoreSamples.two_uploads MoreSamples.workspace_state eq_refl)
    as [_ [Hstored _]].
  split; [reflexivity|].
  split; [exact (Hstored 0 _ eq_refl)|exact (Hstored 1 _ eq_refl)].
Defined.

(** **** Resolving a dataset after an upload *)

(** A place of [TEMP_DIR] that the upload did not write and that holds
    something afterwards held the same before, and it is the persistent plot
    or a directory, unless its deletion failed. *)
Lemma upload_other_entry (w : world) (open_raises : path -> option exn)
    (file0 : uploaded_file) (rest : list uploaded_file) (st : state) (x : string) :
  let p := child (TEMP_DIR w) x in
  let st' := fst (fst (upload w open_raises (file0 :: rest) st)) in
  (forall k file, nth_error (file0 :: rest) k = Some file ->
     p <> child (TEMP_DIR w) (stored_name (S k) file)) ->
  unlink_raises w p = None ->
  exists_ (fs st') p = true ->
  lookup (fs st') p = lookup (fs st) p /\
  (is_persistent (session st) p = true \/ is_dir (fs st) p = true).
Proof.
  intros p st' Hp Hu. subst st'.
  rewrite upload_unfold, clean_temp_unfold. cbv zeta. cbn [fst snd fs session].
  set (swept := fold_left _ _ _).
  pose proof (store_uploads_result w open_raises (file0 :: rest) 1 (fst swept))
    as [Hframe _].
  unfold exists_. rewrite (Hframe p Hp).
  destruct (lookup (fst swept) p) as [n|] eqn:En; [intros _|discriminate].
  pose proof (clean_temp_step_subset w (session st) _ (fs st, []) p n En) as E0.
  cbn [fst] in E0. split; [now rewrite E0|].
  destruct (is_persistent (session st) p) eqn:Es; [now left|right].
  unfold is_dir. rewrite E0. destruct n as [[data|] t]; [exfalso|reflexivity].
  assert (Hin : In p (iterdir (fs st) (TEMP_DIR w))).
  { apply iterdir_In. split; [exists {| node_kind := RegularFile data; st_mtime := t |};
                                now apply lookup_In|].
    unfold p. rewrite name_child. split; [reflexivity|].
    unfold child. now destruct (TEMP_DIR w). }
  pose proof (clean_temp_step_removes w (session st) p _ Es Hu (fs st, [])
                (or_introl Hin)) as Hgone.
  fold swept in Hgone. unfold is_file in Hgone. now rewrite En in Hgone.
Qed.

Lemma find_map_unique {A B : Type} (f : B -> bool) (g : A -> B) (l : list A)
    (a : A) :
  In a l -> f (g a) = true ->
  (forall x, In x l -> f (g x) = true -> x = a) ->
  find f (map g l) = Some (g a).
Proof.
  induction l as [|y l IH]; intros Hin Ha Huniq; [contradiction|].
  cbn [map find]. destruct (f (g y)) eqn:Ey.
  - now rewrite (Huniq y (or_introl eq_refl) Ey).
  - destruct Hin as [->|Hin]; [congruence|].
    apply IH; [exact Hin|exact Ha|]. intros x Hx. apply Huniq. now right.
Qed.

Lemma data_exts_shape (ext : string) :
  In ext DATA_EXTS -> exists t, ext = String "." t.
Proof.
  intros [<-|[<-|[<-|[<-|[<-|[]]]]]]; eexists; reflexivity.
Qed.

(** X8.  After an upload that returned, the dataset name [data<k>] resolves
    to the k-th uploaded file, provided its extension is a recognized one
    and no entry [data<k>] with another recognized extension outlives the
    clean-up (as a directory, as the persistent plot, or because its
    deletion fails). *)
Theorem upload_then_named (w : world) (open_raises : path -> option exn)
    (uploaded_files : list uploaded_file) (st : state) (k : nat)
    (file : uploaded_file) :
  snd (upload w open_raises uploaded_files st) = Returned ->
  nth_error uploaded_files k = Some file ->
  Permutation (set_order w) DATA_EXTS ->
  In (file_extension file) DATA_EXTS ->
  (forall ext, In ext DATA_EXTS -> ext <> file_extension file ->
     let p := child (TEMP_DIR w) ("data" ++ decimal (S k) ++ ext) in
     unlink_raises w p = None /\ is_persistent (session st) p = false /\
     is_dir (fs st) p = false) ->
  let st' := fst (fst (upload w open_raises uploaded_files st)) in
  find_dataset_path w (fs st') (Some ("data" ++ decimal (S k)))
  = Some (child (TEMP_DIR w) (stored_name (S k) file)).
Proof.
  intros Hret Hk Hperm Hext Hothers st'.
  destruct uploaded_files as [|file0 rest]; [destruct k; discriminate|].
  change (find_dataset_path w (fs st') (Some ("data" ++ decimal (S k))))
    with (find (exists_ (fs st'))
            (map (fun ext => child (TEMP_DIR w) (("data" ++ decimal (S k)) ++ ext))
                 (set_order w))).
  assert (Hname : forall ext, ("data" ++ decimal (S k)) ++ ext
                              = "data" ++ decimal (S k) ++ ext) by reflexivity.
  replace (stored_name (S k) file)
    with (("data" ++ decimal (S k)) ++ file_extension file) by apply Hname.
  apply (find_map_unique (exists_ (fs st'))
           (fun ext => child (TEMP_DIR w) (("data" ++ decimal (S k)) ++ ext))).
  - apply (Permutation_in _ (Permutation_sym Hperm)), Hext.
  - rewrite Hname. unfold exists_, st'.
    pose proof (store_uploads_result w open_raises (file0 :: rest) 1) as Hs.
    rewrite upload_unfold in *. cbv zeta in *. cbn [fst snd fs] in *.
    destruct (Hs (fs (fst (clean_temp_keep_persistent_plot w st)))) as [_ Hstored].
    cbv zeta in Hstored. pose proof (Hstored Hret k file Hk) as E.
    match goal with
    | |- match ?L with _ => _ end = true =>
        replace L with (Some {| node_kind := RegularFile (getbuffer file);
                                st_mtime := clock w |})
          by (symmetry; exact E)
    end.
    reflexivity.
  - intros ext Hin Hex. apply (Permutation_in _ Hperm) in Hin.
    destruct (string_dec ext (file_extension file)) as [E|Hne]; [exact E|exfalso].
    rewrite Hname in Hex. destruct (Hothers ext Hin Hne) as [Hu [Hs Hd]].
    destruct (upload_other_entry w open_raises file0 rest st
                ("data" ++ decimal (S k) ++ ext)) as [_ [H|H]];
      [|exact Hu|exact Hex|congruence|congruence].
    intros j g Hj E. apply child_inj in E as [_ E].
    change ("data" ++ decimal (S k) ++ ext = "data" ++ decimal (S j) ++ file_extension g)
      in E.
    simpl in E. injection E as E.
    destruct (data_exts_shape ext Hin) as [t Et].
    destruct (digits_app_inj _ _ _ _ (decimal_digits (S k)) (decimal_digits (S j))
                (or_intror (ex_intro _ t Et)) (file_extension_shape g) E) as [Ed Ee].
    apply decimal_inj in Ed. injection Ed as ->.
    rewrite Hk in Hj. injection Hj as <-. congruence.
Qed.

Lemma calm_set_order : Permutation (set_order Samples.calm_world) DATA_EXTS.
Proof.
  apply NoDup_Permutation.
  - repeat constructor; simpl; intuition discriminate.
  - repeat constructor; simpl; intuition discriminate.
  - intros x. simpl. tauto.
Qed.

(** On the sample workspace, whose old [data2.csv] the clean-up deletes:
    [data2] is the second uploaded file. *)
Lemma upload_then_named_witness :
  let result := upload Samples.calm_world (fun _ => None)
                  MoreSamples.two_uploads MoreSamples.workspace_state in
  snd result = Returned /\
  find_dataset_path Samples.calm_world (fs (fst (fst result)))
    (snd (parse_columns "plot the columns of data2"))
  = Some (child Samples.temp "data2.json").
Proof.
  intros result. split; [reflexivity|].
  refine (upload_then_named Samples.calm_world (fun _ => None)
            MoreSamples.two_uploads MoreSamples.workspace_state 1
            {| file_name := "log.json"; getbuffer := "l" |}
            eq_refl eq_refl calm_set_order _ _).
  - simpl. tauto.
  - intros ext Hext Hne. simpl in Hext.
    destruct Hext as [<-|[<-|[<-|[<-|[<-|[]]]]]];
      repeat split; try reflexivity.
Defined.

(** The numeral of a positive index has no leading zero, so the numeral of
    1 followed by an extension comes before every longer numeral. *)
Lemma to_uint_normal (n : nat) : Decimal.unorm (Nat.to_uint n) = Nat.to_uint n.
Proof.
  rewrite <- (Unsigned.to_of (Nat.to_uint n)). now rewrite Unsigned.of_to.
Qed.

Lemma compare_after_one (k : nat) (e1 e2 : string) :
  (e1 = EmptyString \/ exists t, e1 = String "." t) ->
  String.compare ("1" ++ e1) (decimal (S (S k)) ++ e2) = Lt.
Proof.
  intros S1. unfold decimal.
  pose proof (to_uint_normal (S (S k))) as Hnorm.
  pose proof (Unsigned.of_to (S (S k))) as Hof.
  destruct (Nat.to_uint (S (S k))) as [|d|d|d|d|d|d|d|d|d|d];
    try reflexivity; try discriminate.
  - exfalso. rewrite DecimalFacts.unorm_D0 in Hnorm.
    destruct d as [|d|d|d|d|d|d|d|d|d|d]; try discriminate;
      match type of Hnorm with
      | Decimal.unorm ?u = _ =>
          assert (Hu : u <> Decimal.Nil) by discriminate;
          pose proof (DecimalFacts.nb_digits_unorm u Hu) as Hlen;
          rewrite Hnorm in Hlen; simpl in Hlen; lia
      end.
  - destruct d as [|d|d|d|d|d|d|d|d|d|d];
      try (destruct S1 as [->|[t ->]]; reflexivity).
    discriminate.
Qed.

Lemma stored_name_first_least (file0 : uploaded_file) (rest : list uploaded_file)
    (k : nat) (file : uploaded_file) :
  nth_error (file0 :: rest) k = Some file ->
  String.leb (stored_name 1 file0) (stored_name (S k) file) = true.
Proof.
  intros Hk. unfold String.leb. destruct k as [|k].
  - injection Hk as <-. now rewrite string_compare_refl.
  - unfold stored_name.
    change (String.compare ("data" ++ decimal 1 ++ file_extension file0)
              ("data" ++ decimal (S (S k)) ++ file_extension file))
      with (String.compare ("1" ++ file_extension file0)
              (decimal (S (S k)) ++ file_extension file)).
    now rewrite (compare_after_one k _ _ (file_extension_shape file0)).
Qed.

Lemma destination_dec (w : world) (files : list uploaded_file) (q : path) :
  forall idx,
    (exists k file, nth_error files k = Some file /\
                    q = child (TEMP_DIR w) (stored_name (idx + k) file)) \/
    (forall k file, nth_error files k = Some file ->
                    q <> child (TEMP_DIR w) (stored_name (idx + k) file)).
Proof.
  induction files as [|file0 rest IH]; intros idx.
  - right. intros [|k] file; discriminate.
  - destruct (list_eq_dec string_dec q
                (child (TEMP_DIR w) (stored_name (idx + 0) file0))) as [E|Hne].
    + left. now exists 0, file0.
    + destruct (IH (S idx)) as [[k [file [Hk E]]]|Hnone].
      * left. exists (S k), file. split; [exact Hk|].
        now rewrite Nat.add_succ_r.
      * right. intros [|k] file Hk.
        -- now injection Hk as <-.
        -- rewrite Nat.add_succ_r. now apply Hnone.
Qed.

Lemma is_dataset_file_stored (fs0 : filesystem) (dir : path) (ext : string) :
  In ext DATA_EXTS ->
  is_file fs0 (child dir ("data1" ++ ext)) = true ->
  is_dataset_file fs0 (child dir ("data1" ++ ext)) = true.
Proof.
  intros Hext Hfile. unfold is_dataset_file, suffix. rewrite Hfile, name_child.
  destruct Hext as [<-|[<-|[<-|[<-|[<-|[]]]]]]; reflexivity.
Qed.

(** X9.  After an upload that returned, a request that names no dataset
    resolves to the first uploaded file, stored as [data1]: provided its
    extension is a recognized one, no deletion of the clean-up fails and the
    persistent plot is not itself a dataset file. *)
Theorem upload_then_default (w : world) (open_raises : path -> option exn)
    (file0 : uploaded_file) (rest : list uploaded_file) (st : state) :
  snd (upload w open_raises (file0 :: rest) st) = Returned ->
  In (file_extension file0) DATA_EXTS ->
  (forall p, unlink_raises w p = None) ->
  (forall p, is_persistent (session st) p = true ->
             is_dataset_file (fs st) p = false) ->
  let st' := fst (fst (upload w open_raises (file0 :: rest) st)) in
  find_dataset_path w (fs st') None
  = Some (child (TEMP_DIR w) (stored_name 1 file0)).
Proof.
  intros Hret Hext Hunlink Hslot st'.
  set (data1 := child (TEMP_DIR w) (stored_name 1 file0)).
  assert (Hstored : lookup (fs st') data1
                    = Some {| node_kind := RegularFile (getbuffer file0);
                              st_mtime := clock w |}).
  { unfold st'.
    pose proof (store_uploads_result w open_raises (file0 :: rest) 1) as Hs.
    rewrite upload_unfold in *. cbv zeta in *. cbn [fst snd fs] in *.
    destruct (Hs (fs (fst (clean_temp_keep_persistent_plot w st)))) as [_ H].
    exact (H Hret 0 file0 eq_refl). }
  assert (Hcand : is_dataset_file (fs st') data1 = true).
  { apply (is_dataset_file_stored (fs st') (TEMP_DIR w) (file_extension file0) Hext).
    unfold is_file.
    change (child (TEMP_DIR w) ("data1" ++ file_extension file0)) with data1.
    now rewrite Hstored. }
  assert (Hlisted : In data1 (iterdir (fs st') (TEMP_DIR w))).
  { apply iterdir_In. split; [eexists; apply lookup_In, Hstored|].
    unfold data1. rewrite name_child. split; [reflexivity|].
    unfold child. now destruct (TEMP_DIR w). }
  assert (Hleast : forall q, In q (iterdir (fs st') (TEMP_DIR w)) ->
                     is_dataset_file (fs st') q = true ->
                     String.leb (stored_name 1 file0) (name q) = true).
  { intros q Hq Hfq.
    destruct (destination_dec w (file0 :: rest) q 1) as [[k [file [Hk ->]]]|Hnone].
    - rewrite name_child. now apply (stored_name_first_least file0 rest k file).
    - exfalso. apply iterdir_In in Hq as [_ [Eq _]].
      apply is_dataset_file_spec in Hfq as Hspec. destruct Hspec as [Hfile _].
      assert (Hex : exists_ (fs st') q = true).
      { unfold exists_. unfold is_file in Hfile. now destruct (lookup (fs st') q). }
      rewrite Eq in Hex, Hnone.
      destruct (upload_other_entry w open_raises file0 rest st (name q)
                  Hnone (Hunlink _) Hex) as [Hsame [Hp|Hd]];
        fold st' in Hsame; rewrite <- Eq in *.
      + specialize (Hslot q Hp). unfold is_dataset_file, is_file in *.
        rewrite Hsame in Hfq. congruence.
      + unfold is_dir, is_file in *. rewrite <- Hsame in Hd.
        destruct (lookup (fs st') q) as [[[data|] t]|]; discriminate. }
  unfold find_dataset_path.
  assert (Hs := sorted_strongly _ path_leb path_leb_total path_leb_trans
                  (iterdir (fs st') (TEMP_DIR w))).
  destruct (find (is_dataset_file (fs st'))
              (sorted path_leb (iterdir (fs st') (TEMP_DIR w)))) as [x|] eqn:Ef.
  - destruct (find_sorted_least _ path_leb path_leb_total _ _ _ Hs Ef)
      as [Hin [Hx Hmin]].
    apply sorted_In in Hin.
    specialize (Hmin data1 (proj2 (sorted_In _ _ _ _) Hlisted) Hcand).
    specialize (Hleast x Hin Hx).
    apply iterdir_In in Hin as [_ [Ex _]]. rewrite Ex in Hmin |- *.
    unfold data1 in Hmin. rewrite path_leb_siblings in Hmin.
    now rewrite (String.leb_antisym _ _ Hmin Hleast).
  - pose proof (find_none _ _ Ef data1 (proj2 (sorted_In _ _ _ _) Hlisted)).
    congruence.
Qed.

(** On the sample workspace: a request without a dataset name gets the
    first uploaded file. *)
Lemma upload_then_default_witness :
  let result := upload Samples.calm_world (fun _ => None)
                  MoreSamples.two_uploads MoreSamples.workspace_state in
  snd result = Returned /\
  find_dataset_path Samples.calm_world (fs (fst (fst result)))
    (snd (parse_columns "plot the first column"))
  = Some (child Samples.temp "data1.csv").
Proof.
  intros result. split; [reflexivity|].
  refine (upload_then_default Samples.calm_world (fun _ => None)
            {| file_name := "Readings.CSV"; getbuffer := "r" |}
            [{| file_name := "log.json"; getbuffer := "l" |}]
            MoreSamples.workspace_state eq_refl _ (fun _ => eq_refl) _).
  - simpl. tauto.
  - intros p Hp. unfold is_persistent in Hp. simpl in Hp.
    apply path_eqb_eq in Hp. subst p. reflexivity.
Defined.

End UploadFacts.

Section NamedDatasetFacts.
Import PyStr Effects FS Prompt App.

(** X10.  A report for a prompt that names a dataset is made from that
    dataset only: the file read is [TEMP_DIR/<name><ext>] for the name
    [data<N>] of the prompt and a recognized extension, it exists and its
    reader did not fail; the report branch never falls back to another
    dataset. *)
Theorem report_uses_named_dataset (w : world) (st : state) (prompt d : string)
    (columns cols : list string) (file : path) :
  Permutation (set_order w) DATA_EXTS ->
  snd (parse_columns prompt) = Some d ->
  In (GenerateReport file cols) (snd (report_branch w st columns (Some d))) ->
  (exists ext, In ext DATA_EXTS /\ file = child (TEMP_DIR w) (d ++ ext)) /\
  exists_ (fs st) file = true /\
  read_raises w file = None /\
  cols = columns.
Proof.
  intros Hperm Hd Hin.
  destruct (parse_columns_dataset_named _ _ Hd) as [g ->].
  unfold report_branch in Hin.
  destruct (find_dataset_path w (fs st) (Some ("data" ++ g))) as [p|] eqn:Ef.
  - destruct (read_dataset w p) as [e|[|]] eqn:Er; cbn [snd] in Hin.
    + destruct Hin as [[=]|[]].
    + destruct Hin as [[=]|[[=]|[[=]|[]]]]. subst p cols.
      change (find_dataset_path w (fs st) (Some ("data" ++ g)))
        with (find (exists_ (fs st))
                (map (fun ext => child (TEMP_DIR w) (("data" ++ g) ++ ext))
                     (set_order w))) in Ef.
      apply find_some in Ef as [Hmem Hex].
      apply in_map_iff in Hmem as [ext [<- Hext]].
      split; [exists ext; split; [exact (Permutation_in _ Hperm Hext)|reflexivity]|].
      split; [exact Hex|]. split; [|reflexivity].
      unfold read_dataset in Er.
      destruct (_ || _) in Er; [|discriminate].
      now destruct (read_raises w _).
    + destruct Hin as [].
  - destruct Hin as [[=]|[]].
Qed.

(** On the sample workspace: the prompt names [data2], the report is made
    from [data2.csv] although [data1.json] comes first. *)
Lemma report_uses_named_dataset_witness :
  In (GenerateReport (child Samples.temp "data2.csv") ["vibration_x"])
     (snd (report_branch Samples.calm_world MoreSamples.workspace_state
             ["vibration_x"] (Some "data2"))) /\
  exists_ Samples.workspace (child Samples.temp "data2.csv") = true.
Proof.
  assert (Hin : In (GenerateReport (child Samples.temp "data2.csv") ["vibration_x"])
                  (snd (report_branch Samples.calm_world MoreSamples.workspace_state
                          ["vibration_x"] (Some "data2")))) by (left; reflexivity).
  split; [exact Hin|].
  exact (proj1 (proj2 (report_uses_named_dataset Samples.calm_world
                         MoreSamples.workspace_state
                         "report on vib x of data2" "data2"
                         ["vibration_x"] ["vibration_x"]
                         (child Samples.temp "data2.csv")
                         calm_set_order eq_refl Hin))).
Defined.

End NamedDatasetFacts.

Section HistoryFacts.
Import PyStr Effects Data FS Prompt App History.

Lemma firstn_app_firstn {A : Type} (n : nat) (x y : list A) :
  firstn n (x ++ firstn n y) = firstn n (x ++ y).
Proof.
  rewrite !firstn_app, firstn_firstn.
  now replace (Nat.min (n - List.length x) n) with (n - List.length x) by lia.
Qed.

Lemma keep_non_meta_step (acc : list string) (msg : string) :
  List.length acc <= 3 ->
  rev (keep_non_meta acc msg)
  = if is_turn_message msg then firstn 3 (msg :: rev acc) else rev acc.
Proof.
  intros Hacc. unfold keep_non_meta, is_turn_message.
  destruct (startswith msg "code_executor" || startswith msg "code_developer");
    [|reflexivity].
  rewrite length_app. cbn [List.length].
  destruct (Nat.ltb_spec 3 (List.length acc + 1)) as [Hlt|Hle].
  - destruct acc as [|a [|b [|c [|d acc]]]]; simpl in *; try lia.
    reflexivity.
  - rewrite rev_app_distr.
    change (rev [msg] ++ rev acc)%list with (msg :: rev acc).
    symmetry. apply firstn_all2. cbn [List.length]. rewrite length_rev. lia.
Qed.

(** Read backwards, the window of [query] holds the three most recent turn
    messages. *)
Lemma keep_non_meta_window (msgs : list string) :
  forall acc, List.length acc <= 3 ->
    rev (fold_left keep_non_meta msgs acc)
    = firstn 3 (rev (filter is_turn_message msgs) ++ rev acc).
Proof.
  induction msgs as [|m msgs IH]; intros acc Hacc.
  - cbn [fold_left filter rev app]. symmetry. apply firstn_all2.
    rewrite length_rev. lia.
  - cbn [fold_left filter].
    assert (Hlen : List.length (keep_non_meta acc m) <= 3).
    { rewrite <- length_rev, keep_non_meta_step by exact Hacc.
      destruct (is_turn_message m); [|now rewrite length_rev].
      rewrite length_firstn. lia. }
    rewrite (IH _ Hlen), keep_non_meta_step by exact Hacc.
    destruct (is_turn_message m); [|reflexivity].
    rewrite firstn_app_firstn. cbn [rev]. now rewrite <- app_assoc.
Qed.

Lemma cleanup_keeps_history (w : world) (run_id : string) (run_dir : path)
    (loaded : option blob) (task : string) (local : executor) (st : state) :
  let st' := fst (fst (cleanup w run_id run_dir loaded task local st)) in
  messages (session st') = messages (session st) /\
  last_code_developer_msg (session st') = last_code_developer_msg (session st).
Proof.
  rewrite cleanup_unfold. cbv zeta. cbn [fst].
  assert (Hsave : forall s,
            messages (session (fst (save_team_state w loaded task s)))
              = messages (session s) /\
            last_code_developer_msg (session (fst (save_team_state w loaded task s)))
              = last_code_developer_msg (session s)).
  { intros s. unfold save_team_state. now destruct (save_state w loaded task). }
  assert (Hpromote : forall s,
            messages (session (fst (promote w run_id run_dir s)))
              = messages (session s) /\
            last_code_developer_msg (session (fst (promote w run_id run_dir s)))
              = last_code_developer_msg (session s)).
  { intros s. unfold promote. destruct (pngs_by_mtime (fs s) run_dir); [now split|].
    destruct (copy2 w (fs s) _ _); [now split|].
    destruct (last_plot (session s)); [|now split].
    destruct (_ && _); [|now split]. now destruct (unlink w _ _). }
  assert (Hdestroy : forall s,
            session (fst (destroy_run w run_dir s)) = session s).
  { intros s. unfold destroy_run. destruct (_ && _); [|reflexivity].
    now destruct (rmtree w (fs s) run_dir). }
  rewrite Hdestroy. destruct (Hpromote (fst (save_team_state w loaded task st)))
    as [-> ->]. apply Hsave.
Qed.

Lemma query_yields (w : world) (prompt : string) (st : state) (fs0 : filesystem) :
  let run_dir := child (TEMP_DIR w) (uuid4_hex w) in
  mkdir w (fs st) run_dir = inr fs0 ->
  let seeded := seed_run_dir w fs0 run_dir in
  let ld := load_team_state w (session st) in
  let task := make_task prompt (file_paths (fst seeded) run_dir) in
  let call := orchestrate (team_run_stream w (fst ld)) (local_executor w) task in
  yields (snd (fst (fst (query w prompt st)))) = yields (fst (fst call)).
Proof.
  intros run_dir Hmk seeded ld task call.
  destruct (query_trace w prompt st fs0 Hmk) as [after [Htr [[a1 [a2 [-> [H1 H2]]]] _]]].
  fold run_dir seeded ld task call in Htr. rewrite Htr.
  rewrite !yields_app.
  rewrite (prints_yields (snd seeded) (seed_run_dir_prints w fs0 run_dir)).
  rewrite (prints_yields (snd ld) (load_team_state_prints w (session st))).
  rewrite (prints_yields _ H1). cbn [yields app].
  rewrite (prints_yields _ H2). now rewrite app_nil_r.
Qed.

(** X11.  What [query] leaves in the chat history.  When it returns, the
    history is reset to at most one message: the most recent developer
    message among the three most recent turn messages the loop yielded, and
    nothing when these three hold no developer message; the same message is
    kept as [last_code_developer_msg].  When it raises, both keys are as
    before. *)
Theorem query_history (w : world) (prompt : string) (st : state) :
  let result := query w prompt st in
  let st' := fst (fst (fst result)) in
  let turns := filter is_turn_message (yields (snd (fst (fst result)))) in
  match snd (fst result) with
  | Returned =>
      last_code_developer_msg (session st')
        = find is_developer_message (firstn 3 (rev turns)) /\
      messages (session st')
        = match find is_developer_message (firstn 3 (rev turns)) with
          | Some msg => [msg]
          | None => []
          end
  | Raised _ =>
      last_code_developer_msg (session st') = last_code_developer_msg (session st) /\
      messages (session st') = messages (session st)
  end.
Proof.
  cbv zeta.
  destruct (mkdir w (fs st) (child (TEMP_DIR w) (uuid4_hex w))) as [e|fs0] eqn:Hmk.
  - unfold query. rewrite Hmk. now split.
  - rewrite (query_yields w prompt st fs0 Hmk).
    rewrite query_unfold. cbv zeta. rewrite Hmk.
    set (seeded := seed_run_dir w fs0 _).
    set (ld := load_team_state w (session st)).
    set (task := make_task prompt _).
    set (call := orchestrate _ _ _).
    set (cl := cleanup _ _ _ _ _ _ _).
    destruct (snd (fst call)) as [|e]; cbn [fst snd session].
    + rewrite keep_non_meta_window by (simpl; lia).
      cbn [rev]. rewrite app_nil_r. now split.
    + destruct (cleanup_keeps_history w (uuid4_hex w)
                  (child (TEMP_DIR w) (uuid4_hex w)) (fst ld) task (snd call)
                  {| fs := match start_raises (local_executor w) with
                           | None => loop_files w (fst seeded)
                           | Some _ => fst seeded
                           end;
                     session := session st |}) as [Hm Hl].
      fold cl in Hm, Hl. now split.
Qed.

End HistoryFacts.

Section LifecycleFacts.
Import PyStr Effects Data FS Prompt App Lifecycle.






End LifecycleFacts.

Section ReportStatsFacts.
Import PyStr ReportGenerator Prompt ReportStats.

(** X13.  Every column identifier that [parse_columns] can return is a key
    of [INTERPRETATIONS]: in a report made for a prompt the fallback text
    [No interpretation available.] is never printed. *)
Theorem parsed_columns_interpreted (prompt col : string) :
  In col (fst (parse_columns prompt)) ->
  In col (map fst INTERPRETATIONS) /\
  interpretation col <> "No interpretation available.".
Proof.
  unfold parse_columns. cbn [fst]. intros Hin.
  apply matched_columns_In in Hin as [k [Hk _]].
  unfold col_map in Hk. cbn [In] in Hk.
  repeat (destruct Hk as [[= <- <-]|Hk];
          [split; [cbn; tauto|discriminate]|]).
  destruct Hk.
Qed.

Lemma parsed_columns_interpreted_witness :
  In "vibration_y" (fst (parse_columns "Report on Vib Y of data1")) /\
  interpretation "vibration_y" <> "No interpretation available.".
Proof.
  assert (Hin : In "vibration_y" (fst (parse_columns "Report on Vib Y of data1")))
    by (left; reflexivity).
  split; [exact Hin|].
  exact (proj2 (parsed_columns_interpreted "Report on Vib Y of data1"
                  "vibration_y" Hin)).
Defined.

Open Scope Q_scope.

(** **** Rounding keeps the order *)




(** **** The largest and the smallest value *)



(** **** The most common value *)




(** Of the two values that occur twice, the mode is the one met first. *)
Example compute_stats_sample :
  let s := compute_stats [3 # 2; 1; 3 # 2; 1; 2] in
  max_val s = Some 2 /\ min_val s = Some 1 /\ mode_val s = Some (3 # 2) /\
  avg s = Some (7 # 5).
Proof. repeat split. Qed.

End ReportStatsFacts.

Section ChatViewFacts.
Import PyStr FS App ChatView.

Lemma show_message_images (fs0 : filesystem) (s : session_state) (msg : string)
    (file : path) (caption : option string) :
  In (Image file caption) (show_message fs0 s msg) ->
  last_plot s = Some file /\ exists_ fs0 file = true.
Proof.
  unfold show_message. intros [H|H].
  - repeat destruct (startswith msg _); discriminate.
  - destruct (last_plot s) as [p|]; [|destruct H].
    destruct (_ && exists_ fs0 p) eqn:E; [|destruct H].
    destruct H as [[= <- _]|[]]. apply andb_true_iff in E. now split.
Qed.

Lemma show_message_bubbles (fs0 : filesystem) (s : session_state) (msg : string) :
  bubbles (show_message fs0 s msg) = [msg].
Proof.
  unfold show_message.
  assert (H : forall b, bubbles
            (b :: match last_plot s with
                  | Some img_path =>
                      if (if truthy (last_plot_filename s) then true
                          else match last_plot s with
                               | Some p => negb (name p =? "")
                               | None => false
                               end) && exists_ fs0 img_path
                      then [Image img_path (last_plot_filename s)]
                      else []
                  | None => []
                  end) = bubbles [b]).
  { intros b. destruct b; cbn [bubbles]; destruct (last_plot s); try reflexivity;
      destruct (_ && _); reflexivity. }
  rewrite H. now repeat destruct (startswith msg _).
Qed.

Lemma bubbles_app (p q : list widget) : bubbles (p ++ q) = (bubbles p ++ bubbles q)%list.
Proof.
  induction p as [|[role avatar body|file caption] p IH]; cbn; now rewrite ?IH.
Qed.

(** X15.  The page never shows a dangling plot: every image drawn is the
    file of the persistent slot, and that file exists; when the slot is set
    and its file exists the plot is drawn, after the messages; and each kept
    message is drawn as one chat bubble, in the order of the history. *)
Theorem show_history_images (fs0 : filesystem) (s : session_state) :
  let page := show_history fs0 s in
  (forall file caption, In (Image file caption) page ->
     last_plot s = Some file /\ exists_ fs0 file = true) /\
  (forall file, last_plot s = Some file -> exists_ fs0 file = true ->
     exists before, page = (before ++ [Image file (Some "Last generated plot")])%list) /\
  bubbles page = messages s.
Proof.
  unfold show_history. cbv zeta. split; [|split].
  - intros file caption Hin. apply in_app_iff in Hin as [Hin|Hin].
    + apply in_flat_map in Hin as [msg [_ Hin]].
      now apply show_message_images in Hin.
    + destruct (last_plot s) as [p|]; [|destruct Hin].
      destruct (exists_ fs0 p) eqn:E; [|destruct Hin].
      destruct Hin as [[= <- _]|[]]. now split.
  - intros file -> ->. now eexists.
  - rewrite bubbles_app.
    assert (Hlast : bubbles match last_plot s with
                            | Some plot_path =>
                                if exists_ fs0 plot_path
                                then [Image plot_path (Some "Last generated plot")]
                                else []
                            | None => []
                            end = []).
    { destruct (last_plot s) as [p|]; [|reflexivity]. now destruct (exists_ fs0 p). }
    rewrite Hlast, app_nil_r.
    induction (messages s) as [|m l IH]; [reflexivity|].
    cbn [flat_map]. now rewrite bubbles_app, show_message_bubbles, IH.
Qed.

End ChatViewFacts.

Section SlotFacts.
Import PyStr Effects Data FS Prompt App.

Lemma mkdir_keeps_files (w : world) (fs0 fs1 : filesystem) (dir p : path) :
  mkdir w fs0 dir = inr fs1 -> is_file fs0 p = true ->
  lookup fs1 p = lookup fs0 p /\ p <> dir.
Proof.
  unfold mkdir, is_file. intros Hmk Hp.
  assert (Hne : p <> dir).
  { intros ->. destruct (lookup fs0 dir) as [[[data|] t]|]; discriminate. }
  split; [|exact Hne].
  destruct (lookup fs0 dir) as [[[data|] t]|]; try discriminate;
    injection Hmk as <-; [reflexivity|].
  apply lookup_write_other. congruence.
Qed.

Lemma generate_pdf_report_keeps_files (w : world) (fs0 : filesystem)
    (dataset : path) (columns : list string) (p : path) :
  is_file fs0 p = true ->
  is_file (generate_pdf_report w fs0 dataset columns) p = true.
Proof.
  intros Hp. unfold generate_pdf_report.
  set (report_dir := child (cwd w) "report").
  assert (H1 : is_file (if exists_ fs0 report_dir then fs0
                        else write fs0 report_dir
                               {| node_kind := Directory; st_mtime := clock w |}) p
               = true).
  { destruct (exists_ fs0 report_dir) eqn:Ex; [exact Hp|].
    unfold is_file. rewrite lookup_write_other; [exact Hp|].
    intros <-. unfold exists_, is_file in *.
    destruct (lookup fs0 report_dir); discriminate. }
  unfold is_file. destruct (list_eq_dec string_dec (pdf_path w) p) as [<-|Hne].
  - now rewrite lookup_write_same.
  - rewrite lookup_write_other; [exact H1|exact Hne].
Qed.

Lemma report_branch_keeps_slot (w : world) (st : state) (columns : list string)
    (dataset : option string) :
  slot_ok w st -> slot_ok w (fst (report_branch w st columns dataset)).
Proof.
  intros Hok. unfold report_branch.
  destruct (find_dataset_path w (fs st) dataset) as [file|]; [|exact Hok].
  destruct (read_dataset w file) as [e|[|]]; [exact Hok| |exact Hok].
  intros p Hp. cbn [fst fs session] in *. destruct (Hok p Hp) as [Hx Hfile].
  split; [exact Hx|]. now apply generate_pdf_report_keeps_files.
Qed.

(** The [finally] block keeps the slot in order. *)
Lemma cleanup_slot (w : world) (run_id : string) (loaded : option blob)
    (task : string) (local : executor) (st : state) :
  slot_ok w st ->
  slot_ok w (fst (fst (cleanup w run_id (child (TEMP_DIR w) run_id)
                         loaded task local st))).
Proof.
  intros Hok. rewrite cleanup_unfold. cbv zeta. cbn [fst].
  destruct (save_team_state_frame w loaded task st) as [Hfs [Hslot _]].
  set (saved := fst (save_team_state w loaded task st)) in *.
  assert (Hsaved : slot_ok w saved).
  { intros p Hp. rewrite Hslot in Hp. unfold is_file. rewrite Hfs.
    exact (Hok p Hp). }
  clearbody saved. clear Hfs Hslot Hok st.
  set (run_dir := child (TEMP_DIR w) run_id).
  pose proof (promote_cases w run_id run_dir saved) as Hp. cbv zeta in Hp.
  set (promoted := fst (promote w run_id run_dir saved)) in *.
  assert (Hpromoted : slot_ok w promoted).
  { destruct (pngs_by_mtime (fs saved) run_dir) as [|p0 rest].
    - destruct Hp as [_ ->]. exact Hsaved.
    - destruct Hp as [_ [_ Hp]]. destruct (copy2 w (fs saved) _ _).
      + rewrite Hp. exact Hsaved.
      + destruct Hp as [Hs [_ [Hfile _]]]. intros p. rewrite Hs. intros [= <-].
        split; [eauto|exact Hfile]. }
  clearbody promoted. clear Hp Hsaved saved.
  destruct (destroy_run_frame w run_id promoted) as [Hsess [_ [Hkeep _]]].
  fold run_dir in Hsess, Hkeep.
  intros p Hp. rewrite Hsess in Hp. destruct (Hpromoted p Hp) as [[x ->] Hfile].
  split; [eauto|]. unfold is_file in *. now rewrite Hkeep.
Qed.

Lemma query_keeps_slot (w : world) (prompt : string) (st : state) :
  slot_ok w st ->
  (forall fs1 p, last_plot (session st) = Some p -> is_file fs1 p = true ->
                 is_file (loop_files w fs1) p = true) ->
  slot_ok w (fst (fst (fst (query w prompt st)))).
Proof.
  intros Hok Hloop. rewrite query_unfold. cbv zeta.
  destruct (mkdir w (fs st) (child (TEMP_DIR w) (uuid4_hex w))) as [e|fs0] eqn:Hmk;
    [exact Hok|].
  set (run_dir := child (TEMP_DIR w) (uuid4_hex w)) in *.
  set (seeded := seed_run_dir w fs0 run_dir).
  set (ld := load_team_state w (session st)).
  set (task := make_task prompt _).
  set (call := orchestrate _ _ _).
  set (fs2 := match start_raises (local_executor w) with
              | None => loop_files w (fst seeded)
              | Some _ => fst seeded
              end).
  assert (Hbefore : slot_ok w {| fs := fs2; session := session st |}).
  { intros p Hp. cbn [session fs] in *. destruct (Hok p Hp) as [[x Hx] Hfile].
    split; [now exists x|].
    destruct (mkdir_keeps_files w _ _ _ p Hmk Hfile) as [Hsame Hne].
    assert (Hseeded : is_file (fst seeded) p = true).
    { unfold is_file, seeded, seed_run_dir.
      rewrite (seed_step_frame w run_dir p); [cbn [fst]; now rewrite Hsame|].
      subst p. unfold run_dir. rewrite below_sibling.
      apply String.eqb_neq. intros E. apply Hne. unfold run_dir. now rewrite E. }
    unfold fs2. destruct (start_raises (local_executor w)); [exact Hseeded|].
    now apply Hloop. }
  pose proof (cleanup_slot w (uuid4_hex w) (fst ld) task (snd call) _ Hbefore) as Hcl.
  fold run_dir in Hcl.
  set (cl := cleanup _ _ _ _ _ _ _) in *.
  destruct (snd (fst call)); [|exact Hcl].
  intros p Hp. cbn [fst fs session set_last_developer_msg last_plot] in *.
  exact (Hcl p Hp).
Qed.

(** X16.  The handling of a prompt keeps the persistent slot in order from
    end to end.  If the slot, when set, names a regular file directly in
    [TEMP_DIR] before the prompt, and the code the agents run does not
    remove that file, then the same holds after the prompt: on the report
    branch and on the agent branch, whether the run returns or raises and
    whichever of the file operations fail. *)
Theorem handle_prompt_keeps_slot (w : world) (prompt : string) (st : state) :
  slot_ok w st ->
  (forall fs1 p, last_plot (session st) = Some p -> is_file fs1 p = true ->
                 is_file (loop_files w fs1) p = true) ->
  slot_ok w (fst (fst (handle_prompt w prompt st))).
Proof.
  intros Hok Hloop. unfold handle_prompt.
  destruct (clean_stale_plots_frame w st) as [Hsess _].
  assert (Hclean : slot_ok w (fst (clean_stale_plots w st))).
  { intros p Hp. rewrite Hsess in Hp. destruct (Hok p Hp) as [Hx Hfile].
    split; [exact Hx|]. unfold is_file, clean_stale_plots.
    assert (Hpers : is_persistent (session st) p = true).
    { unfold is_persistent. rewrite Hp. apply path_eqb_refl. }
    pose proof (clean_step_keeps w (session st) p (iterdir (fs st) (TEMP_DIR w))
                  (or_introl Hpers) (fs st, [])) as Hk.
    destruct (fold_left _ _ _) as [fs' tr]. cbn [fst fs] in *. now rewrite Hk. }
  destruct (clean_stale_plots w st) as [st0 tr_clean]. cbn [fst] in *.
  destruct (parse_columns prompt) as [columns dataset].
  destruct (contains "report" (lower prompt) && _).
  - pose proof (report_branch_keeps_slot w st0 columns dataset Hclean) as H.
    now destruct (report_branch w st0 columns dataset).
  - assert (H : slot_ok w (fst (fst (fst (query w prompt st0))))).
    { apply query_keeps_slot; [exact Hclean|]. rewrite Hsess. exact Hloop. }
    now destruct (query w prompt st0) as [[[st1 tr] ended] local'].
Qed.

(** On the sample workspace: one developer turn, no new plot. *)
Lemma handle_prompt_keeps_slot_witness :
  slot_ok Samples.calm_world MoreSamples.workspace_state /\
  slot_ok Samples.calm_world
    (fst (fst (handle_prompt Samples.calm_world "plot the columns of data2"
                 MoreSamples.workspace_state))).
Proof.
  assert (Hok : slot_ok Samples.calm_world MoreSamples.workspace_state).
  { intros p Hp. injection Hp as <-. split; [|reflexivity].
    now exists "run0_plot.png". }
  split; [exact Hok|].
  exact (handle_prompt_keeps_slot Samples.calm_world "plot the columns of data2"
           MoreSamples.workspace_state Hok (fun fs1 p _ H => H)).
Defined.

End SlotFacts.

Section RunDirFacts.
Import PyStr Effects Data FS Prompt App.







End RunDirFacts.

Section SeedFacts.
Import PyStr Effects Data FS Prompt App.

Lemma grandchild_neq_child (dir : path) (a b c : string) :
  child dir a <> child (child dir b) c.
Proof.
  unfold child. intros E. apply (f_equal (@List.length string)) in E.
  rewrite !length_app in E. simpl in E. lia.
Qed.

Lemma suffix_child (d1 d2 : path) (x : string) :
  suffix (child d1 x) = suffix (child d2 x).
Proof. unfold suffix. now rewrite !name_child. Qed.

(** What the seeding loop leaves at a place of the run directory: the file
    of [TEMP_DIR] of the same name when that one is copied, and what was
    there before otherwise. *)
Lemma seed_fold_copies (w : world) (run_id : string) (fs0 : filesystem)
    (x : string) (l : list path) :
  let run_dir := child (TEMP_DIR w) run_id in
  (forall p q, copy2_raises w p q = None) ->
  (forall p, In p l -> p = child (TEMP_DIR w) (name p)) ->
  forall acc : filesystem * list effect,
    (forall q, (forall y, q <> child run_dir y) ->
               lookup (fst acc) q = lookup fs0 q) ->
    lookup (fst (fold_left (seed_step w run_dir) l acc)) (child run_dir x)
    = if existsb (fun p => (name p =? x) && is_file fs0 p
                           && startswith (name p) "data") l
      then lookup fs0 (child (TEMP_DIR w) x)
      else lookup (fst acc) (child run_dir x).
Proof.
  intros run_dir Hcopy. induction l as [|q l IH]; intros Hl acc Hinv;
    [reflexivity|].
  cbn [fold_left existsb].
  assert (Hq : q = child (TEMP_DIR w) (name q)) by (apply Hl; now left).
  assert (Hsame : lookup (fst acc) q = lookup fs0 q).
  { apply Hinv. intros y. rewrite Hq. apply grandchild_neq_child. }
  assert (Hstep :
    (forall q', (forall y, q' <> child run_dir y) ->
                lookup (fst (seed_step w run_dir acc q)) q' = lookup fs0 q') /\
    lookup (fst (seed_step w run_dir acc q)) (child run_dir x)
    = if (name q =? x) && is_file fs0 q && startswith (name q) "data"
      then lookup fs0 (child (TEMP_DIR w) x)
      else lookup (fst acc) (child run_dir x)).
  { destruct acc as [fs1 tr]. unfold seed_step. cbn [fst] in *.
    replace (is_file fs1 q) with (is_file fs0 q)
      by (unfold is_file; now rewrite Hsame).
    destruct (is_file fs0 q && startswith (name q) "data") eqn:Et.
    - destruct (copy2 w fs1 q (child run_dir (name q))) as [e|fs2] eqn:Ec.
      + exfalso. unfold copy2 in Ec. rewrite Hcopy, Hsame in Ec.
        apply andb_true_iff in Et as [Ef _]. unfold is_file in Ef.
        destruct (lookup fs0 q) as [[[data|] t]|]; discriminate.
      + destruct (copy2_result _ _ _ _ _ Ec) as [_ [Hnew Hother]]. cbn [fst].
        split.
        * intros q' Hq'. rewrite Hother; [now apply Hinv|apply Hq'].
        * rewrite <- andb_assoc, Et, andb_true_r.
          destruct (String.eqb_spec (name q) x) as [E|Hne].
          -- rewrite <- E, Hnew, Hsame. now rewrite <- Hq.
          -- apply Hother. intros E. apply child_inj in E as [_ E]. congruence.
    - cbn [fst]. split; [exact Hinv|].
      now rewrite <- andb_assoc, Et, andb_false_r. }
  destruct Hstep as [Hinv' Hx].
  rewrite (IH (fun p Hp => Hl p (or_intror Hp)) _ Hinv'), Hx.
  destruct ((name q =? x) && is_file fs0 q && startswith (name q) "data");
    cbn [orb]; [|reflexivity].
  now destruct (existsb _ l).
Qed.

(** X18.  The datasets offered to the agents.  When the run directory is
    fresh and no copy fails, the paths listed after [Available datasets:]
    in the task are exactly the copies, in the run directory, of the dataset
    files of [TEMP_DIR]: regular files whose name starts with [data] and
    whose extension is a recognized one. *)
Theorem seeded_datasets (w : world) (run_id : string) (fs0 : filesystem) :
  let run_dir := child (TEMP_DIR w) run_id in
  let seeded := fst (seed_run_dir w fs0 run_dir) in
  (forall x, lookup fs0 (child run_dir x) = None) ->
  (forall p q, copy2_raises w p q = None) ->
  forall listed,
    In listed (file_paths seeded run_dir) <->
    exists x, listed = str (child run_dir x) /\
              In (child (TEMP_DIR w) x) (iterdir fs0 (TEMP_DIR w)) /\
              is_dataset_file fs0 (child (TEMP_DIR w) x) = true.
Proof.
  intros run_dir seeded Hfresh Hcopy listed.
  assert (Hat : forall x,
            lookup seeded (child run_dir x)
            = if existsb (fun p => (name p =? x) && is_file fs0 p
                                   && startswith (name p) "data")
                         (iterdir fs0 (TEMP_DIR w))
              then lookup fs0 (child (TEMP_DIR w) x)
              else None).
  { intros x. unfold seeded, seed_run_dir.
    rewrite (seed_fold_copies w run_id fs0 x (iterdir fs0 (TEMP_DIR w)) Hcopy).
    - cbn [fst]. now rewrite Hfresh.
    - intros p Hp. now apply iterdir_In in Hp as [_ [Hp _]].
    - reflexivity. }
  assert (Hnonnil : forall d y, child d y <> []).
  { intros d y. unfold child. now destruct d. }
  unfold file_paths. rewrite in_map_iff. split.
  - intros [q [<- Hq]]. apply filter_In in Hq as [Hq Hds].
    apply iterdir_In in Hq as [_ [Eq _]]. exists (name q).
    split; [now rewrite <- Eq|].
    rewrite Eq in Hds. apply is_dataset_file_spec in Hds as [Hfile [Hstart Hext]].
    rewrite name_child in Hstart. unfold is_file in Hfile. rewrite Hat in Hfile.
    destruct (existsb _ _) eqn:Ex; [|discriminate].
    apply existsb_exists in Ex as [p [Hp Ht]].
    apply andb_true_iff in Ht as [Ht _]. apply andb_true_iff in Ht as [En _].
    apply String.eqb_eq in En.
    assert (Ep : p = child (TEMP_DIR w) (name q)).
    { apply iterdir_In in Hp as Hp'. destruct Hp' as [_ [Ep _]]. now rewrite <- En. }
    split; [now rewrite <- Ep|].
    apply is_dataset_file_spec. rewrite name_child.
    split; [exact Hfile|]. split; [exact Hstart|].
    now rewrite (suffix_child _ run_dir).
  - intros [x [-> [Hin Hds]]]. exists (child run_dir x). split; [reflexivity|].
    apply is_dataset_file_spec in Hds as Hspec.
    destruct Hspec as [Hfile [Hstart Hext]]. rewrite name_child in Hstart.
    assert (Ex : existsb (fun p => (name p =? x) && is_file fs0 p
                                   && startswith (name p) "data")
                         (iterdir fs0 (TEMP_DIR w)) = true).
    { apply existsb_exists. exists (child (TEMP_DIR w) x). split; [exact Hin|].
      now rewrite name_child, String.eqb_refl, Hfile, Hstart. }
    specialize (Hat x). rewrite Ex in Hat.
    assert (Hfile' : is_file seeded (child run_dir x) = true).
    { unfold is_file in *. now rewrite Hat. }
    apply filter_In. split.
    + apply iterdir_In. split.
      * unfold is_file in Hfile'.
        destruct (lookup seeded (child run_dir x)) as [n|] eqn:El; [|discriminate].
        exists n. now apply lookup_In.
      * rewrite name_child. split; [reflexivity|apply Hnonnil].
    + apply is_dataset_file_spec. rewrite name_child.
      split; [exact Hfile'|]. split; [exact Hstart|].
      now rewrite (suffix_child _ (TEMP_DIR w)).
Qed.

(** On the sample workspace with a fresh run directory: the two datasets
    are offered, the text file and the old plot are not. *)
Lemma seeded_datasets_witness :
  let fs0 := (Samples.workspace ++ [(child Samples.temp "run1", Samples.dir 100)])%list in
  let seeded := fst (seed_run_dir Samples.calm_world fs0 (child Samples.temp "run1")) in
  In "/srv/app/temp/run1/data2.csv"
     (file_paths seeded (child Samples.temp "run1")) /\
  ~ In "/srv/app/temp/run1/notes.txt"
       (file_paths seeded (child Samples.temp "run1")).
Proof.
  intros fs0 seeded.
  assert (Hfresh : forall x, lookup fs0 (child (child Samples.temp "run1") x) = None).
  { intros x. unfold fs0, Samples.workspace, Samples.temp, child. cbn.
    repeat (match goal with
            | |- context [path_eqb ?a ?b] =>
                replace (path_eqb a b) with false
                  by (symmetry; apply path_eqb_neq; discriminate)
            end).
    reflexivity. }
  pose proof (seeded_datasets Samples.calm_world "run1" fs0 Hfresh
                (fun _ _ => eq_refl)) as H.
  split.
  - apply (proj2 (H "/srv/app/temp/run1/data2.csv")).
    exists "data2.csv". split; [reflexivity|]. split; [cbn; tauto|reflexivity].
  - intros Hin. apply (proj1 (H "/srv/app/temp/run1/notes.txt")) in Hin
      as [x [Ex [_ Hds]]].
    cbn in Ex. injection Ex as Ex. subst x. discriminate.
Defined.

End SeedFacts.

Section ReaderFacts.
Import PyStr Effects FS Prompt App.






End ReaderFacts.
